(** * Synchronous signal dispatch and the scoped log rollback

    A shallow embedding of [django_signals_demo.py]: the [Signal] class
    ([connect], [send]), the in-memory database [FAKE_DB], the handler
    [log_user_creation], the generator based context manager [atomic],
    [create_user] and the script that runs them.  The file defines
    [Signal] three times with the same text; one embedding stands for
    the three.  The first part of the file, which measures the time of
    a dispatch to a handler that sleeps, is embedded over a state with
    a clock; the second part prints thread identifiers, which this
    development does not model.

    Python objects live in a heap of mutable cells addressed by
    references, so that [FAKE_DB["logs"][:]] is a copy and
    [FAKE_DB["logs"] = backup] a rebinding.  Code is a state and
    exception monad over the interpreter state.  Functions are not heap
    objects: a handler is a function of the embedding that acts on the
    interpreter state, and a [Signal] is a record holding the list of
    its receivers, which only [connect] and [send] reach (a handler that
    registers handlers while it runs is outside the model). *)

From Stdlib Require Import QArith Lqa.
From stdpp Require Import base option list gmap strings.

Open Scope string_scope.
Open Scope list_scope.

(** ** Values, objects and exceptions *)

Definition loc := positive.

Inductive val :=
  | VNone
  | VStr (s : string)
  | VClass (name : string)
  | VRef (l : loc).

Inductive obj :=
  | OList (items : list val)
  | ODict (entries : gmap string val).

(** The exception classes the program can raise.  [KeyboardInterrupt]
    stands for the classes that derive from [BaseException] only. *)
Inductive exn_class :=
  | Exception
  | KeyError
  | TypeError
  | AttributeError
  | NameError
  | KeyboardInterrupt.

Record exn := mk_exn { exn_type : exn_class; exn_arg : string }.

(** [isinstance(e, Exception)] *)
Definition is_Exception (e : exn) : bool :=
  match exn_type e with
  | KeyboardInterrupt => false
  | _ => true
  end.

#[global] Instance val_eq_dec : EqDecision val.
Proof. solve_decision. Defined.

#[global] Instance exn_class_eq_dec : EqDecision exn_class.
Proof. solve_decision. Defined.

#[global] Instance exn_eq_dec : EqDecision exn.
Proof. solve_decision. Defined.

(** ** Interpreter state *)

(** What [print] writes: a line of text, or a label followed by the
    items of a list object as they are when it is printed. *)
Inductive out :=
  | Line (s : string)
  | LineList (label : string) (items : list val).

#[global] Instance out_eq_dec : EqDecision out.
Proof. solve_decision. Defined.

Record world := mk_world {
  globals : gmap string val;
  heap : gmap loc obj;
  stdout : list out
}.

(** ** The state and exception monad *)

Inductive outcome (A : Type) :=
  | Ok (a : A)
  | Raise (e : exn).
Arguments Ok {A} a.
Arguments Raise {A} e.

Definition M (W A : Type) : Type := W → outcome A * W.

Definition ret {W A} (a : A) : M W A := λ w, (Ok a, w).

Definition bind {W A B} (m : M W A) (k : A → M W B) : M W B :=
  λ w, match m w with
       | (Ok a, w') => k a w'
       | (Raise e, w') => (Raise e, w')
       end.

Definition raise {W A} (e : exn) : M W A := λ w, (Raise e, w).

Declare Scope py_scope.
Delimit Scope py_scope with py.
Notation "'let*' x := m 'in' k" := (bind m (λ x, k))
  (at level 10, x name, m at level 100, k at level 200, only parsing) : py_scope.
Notation "m >> k" := (bind m (λ _, k))
  (at level 100, k at level 200, right associativity, only parsing) : py_scope.
Open Scope py_scope.

(** [try: body except: handler] with a bare [except] clause. *)
Definition try_except {W A} (body : M W A) (handler : M W A) : M W A :=
  λ w, match body w with
       | (Ok a, w') => (Ok a, w')
       | (Raise _, w') => handler w'
       end.

(** ** Heap primitives *)

Definition print_line (s : string) : M world unit :=
  λ w, (Ok (), mk_world (globals w) (heap w) (stdout w ++ [Line s])).

(** Reading and binding a module level name. *)
Definition get_global (name : string) : M world val :=
  λ w, match globals w !! name with
       | Some v => (Ok v, w)
       | None => (Raise (mk_exn NameError name), w)
       end.

Definition set_global (name : string) (v : val) : M world unit :=
  λ w, (Ok (), mk_world (<[name:=v]> (globals w)) (heap w) (stdout w)).

(** A new object gets a reference that no live object has. *)
Definition alloc (o : obj) : M world val :=
  λ w, let l := fresh (dom (heap w)) in
       (Ok (VRef l), mk_world (globals w) (<[l:=o]> (heap w)) (stdout w)).

(** The object a value refers to; strings, [None] and classes are not
    containers. *)
Definition deref (v : val) (w : world) : option obj :=
  match v with
  | VRef l => heap w !! l
  | _ => None
  end.

(** [v[key]] with a string key. *)
Definition subscript (v : val) (key : string) : M world val :=
  λ w, match deref v w with
       | Some (ODict d) =>
           match d !! key with
           | Some x => (Ok x, w)
           | None => (Raise (mk_exn KeyError key), w)
           end
       | Some (OList _) =>
           (Raise (mk_exn TypeError "list indices must be integers or slices, not str"), w)
       | None => (Raise (mk_exn TypeError "object is not subscriptable"), w)
       end.

(** [v[key] = x] with a string key. *)
Definition store_subscript (v : val) (key : string) (x : val) : M world unit :=
  λ w, match v, deref v w with
       | VRef l, Some (ODict d) =>
           (Ok (), mk_world (globals w) (<[l:=ODict (<[key:=x]> d)]> (heap w)) (stdout w))
       | _, Some (OList _) =>
           (Raise (mk_exn TypeError "list indices must be integers or slices, not str"), w)
       | _, _ =>
           (Raise (mk_exn TypeError "object does not support item assignment"), w)
       end.

(** [v[:]]: a new list object with the same items; a string is its own
    slice. *)
Definition slice_all (v : val) : M world val :=
  λ w, match v, deref v w with
       | _, Some (OList items) => alloc (OList items) w
       | VStr s, _ => (Ok (VStr s), w)
       | _, Some (ODict _) => (Raise (mk_exn TypeError "unhashable type: 'slice'"), w)
       | _, _ => (Raise (mk_exn TypeError "object is not subscriptable"), w)
       end.

(** [v.append(x)] *)
Definition append (v : val) (x : val) : M world unit :=
  λ w, match v, deref v w with
       | VRef l, Some (OList items) =>
           (Ok (), mk_world (globals w) (<[l:=OList (items ++ [x])]> (heap w)) (stdout w))
       | _, _ => (Raise (mk_exn AttributeError "append"), w)
       end.

(** [str(v)]; the text of a container is not modelled. *)
Definition py_str (v : val) : string :=
  match v with
  | VStr s => s
  | VNone => "None"
  | VClass name => "<class '__main__." +:+ name +:+ "'>"
  | VRef _ => "<object>"
  end.

(** [print(label, v)] *)
Definition print_labelled (label : string) (v : val) : M world unit :=
  λ w, match deref v w with
       | Some (OList items) =>
           (Ok (), mk_world (globals w) (heap w) (stdout w ++ [LineList label items]))
       | _ =>
           (Ok (), mk_world (globals w) (heap w) (stdout w ++ [Line (label +:+ " " +:+ py_str v)]))
       end.

(** ** The [Signal] class *)

Abbreviation kwargs := (gmap string val).

Section signal.
Context {W : Type}.

(** A receiver is called as [receiver(sender=sender, **kwargs)]. *)
Definition handler : Type := val → kwargs → M W val.

Record Signal := mk_Signal { _receivers : list handler }.

(** [Signal.__init__] *)
Definition Signal_init : Signal := mk_Signal [].

(** [Signal.connect]: the object after the call, and the value returned. *)
Definition connect (self : Signal) (func : handler) : Signal * handler :=
  (mk_Signal (_receivers self ++ [func]), func).

(** One call made by [send]. *)
Record call := mk_call {
  callee : handler;
  call_sender : val;
  call_kwargs : kwargs
}.

(** The loop of [Signal.send] over the receivers that remain, with the
    calls it makes listed next to its result.  The value a receiver
    returns is dropped; an exception leaves the loop. *)
Fixpoint dispatch (receivers : list handler) (sender : val) (kw : kwargs)
    (w : W) : outcome unit * W * list call :=
  match receivers with
  | [] => (Ok (), w, [])
  | receiver :: rest =>
      match receiver sender kw w with
      | (Ok _, w') =>
          let '(r, w'', calls) := dispatch rest sender kw w' in
          (r, w'', mk_call receiver sender kw :: calls)
      | (Raise e, w') => (Raise e, w', [mk_call receiver sender kw])
      end
  end.

(** [Signal.send] *)
Definition send (self : Signal) (sender : val) (kw : kwargs) : M W unit :=
  λ w, fst (dispatch (_receivers self) sender kw w).

(** The calls [send] makes when run in state [w]. *)
Definition send_calls (self : Signal) (sender : val) (kw : kwargs) (w : W)
    : list call :=
  snd (dispatch (_receivers self) sender kw w).

(** The receivers run one after the other with no exception in between. *)
Fixpoint run_all (receivers : list handler) (sender : val) (kw : kwargs)
    (w : W) : option W :=
  match receivers with
  | [] => Some w
  | receiver :: rest =>
      match receiver sender kw w with
      | (Ok _, w') => run_all rest sender kw w'
      | (Raise _, _) => None
      end
  end.

(** A client of one signal object: the two methods, called in any order. *)
Inductive op :=
  | Connect (func : handler)
  | Send (sender : val) (kw : kwargs).

Definition apply_op (o : op) (st : Signal * W) : outcome unit * (Signal * W) :=
  match o with
  | Connect func => (Ok (), ((connect st.1 func).1, st.2))
  | Send sender kw =>
      let '(r, w') := send st.1 sender kw st.2 in (r, (st.1, w'))
  end.

(** The client goes on after an exception of [send] (it catches it);
    a client that stops there has run a prefix of the operations. *)
Definition run_ops (ops : list op) (st : Signal * W) : Signal * W :=
  foldl (λ st o, (apply_op o st).2) st ops.

(** [connect] called on a new signal with each of [funcs] in turn. *)
Definition connect_all (funcs : list handler) : Signal :=
  foldl (λ self func, (connect self func).1) Signal_init funcs.

(** The arguments of the [connect] calls, in call order. *)
Fixpoint connected (ops : list op) : list handler :=
  match ops with
  | [] => []
  | Connect func :: ops' => func :: connected ops'
  | Send _ _ :: ops' => connected ops'
  end.
End signal.

Arguments handler : clear implicits.
Arguments Signal : clear implicits.
Arguments call : clear implicits.
Arguments op : clear implicits.

(** ** Context managers made from a generator *)

(** A generator function with one [yield], as [contextlib.contextmanager]
    takes it: the code up to the [yield], which leaves the frame of
    local variables suspended there, and the code that runs when the
    generator is resumed, by [next] ([None]) or by [throw] of the
    exception that left the [with] block. *)
Record generator (W L : Type) := mk_generator {
  gen_enter : M W L;
  gen_resume : L → option exn → M W unit
}.
Arguments mk_generator {W L} _ _.
Arguments gen_enter {W L} _.
Arguments gen_resume {W L} _ _ _.

(** [with cm(): body]. When the block raises and the generator, resumed
    with the exception, returns, [__exit__] returns true and the [with]
    statement ends without an exception ([None] below); an exception
    that leaves the generator leaves the statement. *)
Definition with_cm {W L A} (cm : generator W L) (body : M W A) : M W (option A) :=
  λ w, match gen_enter cm w with
       | (Raise e, w1) => (Raise e, w1)
       | (Ok frame, w1) =>
           match body w1 with
           | (Ok a, w2) =>
               match gen_resume cm frame None w2 with
               | (Ok _, w3) => (Ok (Some a), w3)
               | (Raise e, w3) => (Raise e, w3)
               end
           | (Raise e, w2) =>
               match gen_resume cm frame (Some e) w2 with
               | (Ok _, w3) => (Ok None, w3)
               | (Raise e', w3) => (Raise e', w3)
               end
           end
       end.

(** ** The simulated database, its signal and its transaction manager *)

(** [FAKE_DB = {"users": [], "logs": []}] *)
Definition init_fake_db : M world unit :=
  let* users := alloc (OList []) in
  let* logs := alloc (OList []) in
  let* db := alloc (ODict (<["users":=users]> (<["logs":=logs]> ∅))) in
  set_global "FAKE_DB" db.

Definition create_log (message : val) : M world val :=
  let* db := get_global "FAKE_DB" in
  let* logs := subscript db "logs" in
  append logs message >> ret VNone.

Definition log_user_creation : handler world :=
  λ sender kw,
    match kw !! "instance" with
    | None =>
        raise (mk_exn TypeError "log_user_creation() missing 1 required positional argument: 'instance'")
    | Some instance =>
        print_line "📝 Creating log in signal handler..." >>
        let* username := subscript instance "username" in
        create_log (VStr ("User created: " +:+ py_str username))
    end.

(** [post_save = Signal()] followed by [@post_save.connect] on the handler. *)
Definition post_save : Signal world := (connect Signal_init log_user_creation).1.

Definition atomic : generator world val :=
  mk_generator
    (let* db := get_global "FAKE_DB" in
     let* logs := subscript db "logs" in
     slice_all logs)
    (λ backup thrown,
       match thrown with
       | None => ret ()
       | Some e =>
           if is_Exception e then
             print_line "⛔ Exception occurred, rolling back logs..." >>
             let* db := get_global "FAKE_DB" in
             store_subscript db "logs" backup
           else raise e
       end).

Definition create_user (username : string) (raise_exception : bool) : M world val :=
  let* user := alloc (ODict {["username" := VStr username]}) in
  let* db := get_global "FAKE_DB" in
  let* users := subscript db "users" in
  append users user >>
  send post_save (VStr "User") {["instance" := user]} >>
  if raise_exception then raise (mk_exn Exception "Simulated error after signal")
  else ret user.

(** The last part of the script: the transaction, the [try] around it
    and the final [print]. *)
Definition run_transaction (username : string) (raise_exception : bool) : M world unit :=
  print_line "🔁 Starting transaction..." >>
  try_except
    (with_cm atomic (create_user username raise_exception) >> ret ())
    (print_line "🚨 Transaction failed.") >>
  let* db := get_global "FAKE_DB" in
  let* logs := subscript db "logs" in
  print_labelled (String (Ascii.ascii_of_nat 10) "📦 Final Logs in 'DB':") logs.

Definition empty_world : world := mk_world ∅ ∅ [].

Definition main : M world unit :=
  init_fake_db >> run_transaction "txn_test_user" true.

(** The items of the list [FAKE_DB[key]]. *)
Definition db_list (key : string) (w : world) : option (list val) :=
  match globals w !! "FAKE_DB" with
  | Some db =>
      match deref db w with
      | Some (ODict d) =>
          match d !! key with
          | Some v =>
              match deref v w with
              | Some (OList items) => Some items
              | _ => None
              end
          | None => None
          end
      | _ => None
      end
  | None => None
  end.

(** The list object [FAKE_DB[key]] refers to. *)
Definition db_ref (key : string) (w : world) : option loc :=
  match globals w !! "FAKE_DB" with
  | Some db =>
      match deref db w with
      | Some (ODict d) =>
          match d !! key with
          | Some (VRef l) => Some l
          | _ => None
          end
      | _ => None
      end
  | None => None
  end.

(** ** Receivers for examples

    Two receivers over a state that is a list of notes: one adds a note
    and returns, one raises. *)

Definition note (tag : string) : handler (list string) :=
  λ sender kw w, (Ok VNone, w ++ [tag]).

Definition failing (msg : string) : handler (list string) :=
  λ sender kw, raise (mk_exn Exception msg).

(** A database in which one user was created before. *)
Definition history_world : world :=
  ((init_fake_db >> create_user "bob" false) empty_world).2.

(** ** Reading the result of the transaction *)

(** What [db_list] and [db_ref] say about the heap. *)
Record db_layout (w : world) (ldb lu ll : loc) (d : gmap string val)
    (users logs : list val) : Prop := mk_db_layout {
  layout_global : globals w !! "FAKE_DB" = Some (VRef ldb);
  layout_dict : heap w !! ldb = Some (ODict d);
  layout_users_ref : d !! "users" = Some (VRef lu);
  layout_logs_ref : d !! "logs" = Some (VRef ll);
  layout_users : heap w !! lu = Some (OList users);
  layout_logs : heap w !! ll = Some (OList logs);
  layout_distinct : lu ≠ ll
}.

Definition log_entry (username : string) : val :=
  VStr ("User created: " +:+ username).

Definition user_record (username : string) : obj :=
  ODict {["username" := VStr username]}.

(** The heap after [create_user]: the new user record, the users list
    with a reference to it, the logs list with the handler's entry. *)
Definition heap_after_create_user (h : gmap loc obj) (lu ll : loc)
    (users logs : list val) (username : string) : gmap loc obj :=
  let lnew := fresh (dom h) in
  <[ll:=OList (logs ++ [log_entry username])]>
    (<[lu:=OList (users ++ [VRef lnew])]>
       (<[lnew:=user_record username]> h)).

Definition creating_line : out := Line "📝 Creating log in signal handler...".
Definition rollback_line : out := Line "⛔ Exception occurred, rolling back logs...".
Definition simulated_error : exn := mk_exn Exception "Simulated error after signal".

(** The references of the backup list and of the user record made in
    [with atomic(): create_user(...)] entered with heap [h]. *)
Definition backup_loc (h : gmap loc obj) : loc := fresh (dom h).

Definition new_user_loc (h : gmap loc obj) (logs : list val) : loc :=
  fresh (dom (<[backup_loc h:=OList logs]> h)).

(** The heap when [with atomic(): create_user(...)] is left. *)
Definition heap_after_block (h : gmap loc obj) (ldb lu ll : loc)
    (d : gmap string val) (users logs : list val) (username : string)
    (raise_exception : bool) : gmap loc obj :=
  let lb := fresh (dom h) in
  let h' := heap_after_create_user (<[lb:=OList logs]> h) lu ll users logs username in
  if raise_exception then <[ldb:=ODict (<["logs":=VRef lb]> d)]> h' else h'.

Definition start_line : out := Line "🔁 Starting transaction...".
Definition failed_line : out := Line "🚨 Transaction failed.".
Definition final_label : string :=
  String (Ascii.ascii_of_nat 10) "📦 Final Logs in 'DB':".

(** The module after [FAKE_DB = {"users": [], "logs": []}]. *)
Definition initial_world : world := (init_fake_db empty_world).2.

(** ** The first part of the file: timing the dispatch *)

(** What the first part prints: a line, or a line that ends with a
    duration in seconds. *)
Inductive report :=
  | Said (s : string)
  | SaidDuration (label : string) (seconds : Q).

(** A [User] instance. *)
Record User := mk_User { user_username : val }.

(** The state of the first part: the clock that [time.time] reads, in
    seconds, the [User] instances and the output.  The clock counts the
    time the program is known to have spent, which is the time it
    slept; every other step is taken to cost nothing, so a duration
    read off this clock is a lower bound of the measured one. *)
Record process := mk_process {
  clock : Q;
  instances : gmap loc User;
  said : list report
}.

(** [time.time()] *)
Definition time_time : M process Q := λ w, (Ok (clock w), w).

(** [time.sleep(secs)]; a negative length is refused with a
    [ValueError], which is an instance of [Exception]. *)
Definition time_sleep (secs : Q) : M process unit :=
  λ w, if Qle_bool 0 secs
       then (Ok (), mk_process (clock w + secs) (instances w) (said w))
       else (Raise (mk_exn Exception "sleep length must be non-negative"), w).

Definition say (s : string) : M process unit :=
  λ w, (Ok (), mk_process (clock w) (instances w) (said w ++ [Said s])).

Definition say_duration (label : string) (seconds : Q) : M process unit :=
  λ w, (Ok (), mk_process (clock w) (instances w)
                 (said w ++ [SaidDuration label seconds])).

(** [User(username=username)] *)
Definition User_new (username : val) : M process val :=
  λ w, let l := fresh (dom (instances w)) in
       (Ok (VRef l),
        mk_process (clock w) (<[l:=mk_User username]> (instances w)) (said w)).

(** [slow_signal_handler], with the length of its sleep, 5 in the file,
    as a parameter. *)
Definition sleeping_handler (secs : Q) : handler process :=
  λ sender kw,
    match kw !! "instance" with
    | None =>
        raise (mk_exn TypeError "slow_signal_handler() missing 1 required positional argument: 'instance'")
    | Some instance =>
        say "➡️ Signal handler started" >>
        time_sleep secs >>
        say "✅ Signal handler ended" >>
        ret VNone
    end.

Definition slow_signal_handler : handler process := sleeping_handler 5.

(** [User.create], given the signal that the name [post_save] is bound
    to when it is called. *)
Definition User_create (post_save : Signal process) (username : val)
    : M process val :=
  let* user := User_new username in
  say "👤 User instance created" >>
  send post_save (VClass "User") {["instance" := user]} >>
  ret user.

(** [start = time.time()], the measured code, [end = time.time()], and
    the difference [end - start]. *)
Definition timed {A} (body : M process A) : M process Q :=
  let* start := time_time in
  body >>
  let* end_ := time_time in
  ret (end_ - start)%Q.

(** The first part as the file runs it. *)
Definition post_save_timed : Signal process :=
  (connect Signal_init slow_signal_handler).1.

Definition timing_script : M process unit :=
  let* total := timed (User_create post_save_timed (VStr "testuser_sync")) in
  say_duration "⏱️ Total time taken:" total.

(** A receiver that does not turn the clock back. *)
Definition keeps_time (func : handler process) : Prop :=
  ∀ sender kw w, (clock w <= clock (func sender kw w).2)%Q.

(** A receiver that prints a line and takes no time. *)
Definition quick_handler (s : string) : handler process :=
  λ sender kw, say s >> ret VNone.

Definition process_start : process := mk_process 0 ∅ [].

(** ** A block that is interrupted after the dispatch *)


(** ** Clients of the transaction *)

(** [for x in xs: body(x)] over a list that the body does not change. *)
Fixpoint for_each {W A} (xs : list A) (body : A → M W unit) : M W unit :=
  match xs with
  | [] => ret ()
  | x :: xs' => body x >> for_each xs' body
  end.

(** One transaction after the other, each in its own block:
    [for username, flag in txs: with atomic(): create_user(username, flag)]. *)
Definition run_transactions (txs : list (string * bool)) : M world unit :=
  for_each txs (λ tx, with_cm atomic (create_user tx.1 tx.2) >> ret ()).

(** The entries of the transactions that did not raise. *)
Definition committed_entries (txs : list (string * bool)) : list val :=
  (λ tx, log_entry tx.1) <$> filter (λ tx, tx.2 = false) txs.

(** [v["username"]] read without running code, and
    [[u["username"] for u in FAKE_DB["users"]]]. *)
Definition username_of (w : world) (v : val) : option val :=
  match deref v w with
  | Some (ODict d) => d !! "username"
  | _ => None
  end.

Definition db_usernames (w : world) : option (list val) :=
  match db_list "users" w with
  | Some users => mapM (username_of w) users
  | None => None
  end.

(** A database that has lost its logs: [FAKE_DB = {"users": []}]. *)
Definition no_logs_world : world :=
  mk_world {["FAKE_DB" := VRef 1%positive]}
    (<[1%positive:=ODict {["users" := VRef 2%positive]}]>
       {[2%positive := OList []]})
    [].

(** A block that logs and is then interrupted from the keyboard. *)
Definition interrupted_block : M world val :=
  create_log (VStr "half done") >> raise (mk_exn KeyboardInterrupt "").

(** * Properties of [Signal] *)

Section signal_properties.
Context {W : Type}.
Implicit Types (self : Signal W) (func : handler W) (funcs : list (handler W)).
Implicit Types (sender : val) (kw : kwargs) (w : W).

Lemma connect_all_snoc funcs func :
  connect_all (funcs ++ [func]) = (connect (connect_all funcs) func).1.
Proof. unfold connect_all. by rewrite foldl_app. Qed.

Lemma receivers_connect_all funcs : _receivers (connect_all funcs) = funcs.
Proof.
  induction funcs as [|func funcs IH] using rev_ind; [done|].
  rewrite connect_all_snoc. simpl. by rewrite IH.
Qed.

(** While the receivers return, the loop goes on with the rest. *)
Lemma dispatch_app funcs rest sender kw w w1 :
  run_all funcs sender kw w = Some w1 →
  dispatch (funcs ++ rest) sender kw w =
    ((dispatch rest sender kw w1).1,
     ((λ func, mk_call func sender kw) <$> funcs) ++ (dispatch rest sender kw w1).2).
Proof.
  revert w. induction funcs as [|func funcs IH]; intros w Hrun; simpl in *.
  - injection Hrun as ->. by destruct (dispatch rest sender kw w1) as [[??]?].
  - destruct (func sender kw w) as [[v|e] w']; [|done].
    rewrite (IH _ Hrun). by destruct (dispatch rest sender kw w1) as [[??]?].
Qed.

Lemma dispatch_returns funcs sender kw w w' :
  run_all funcs sender kw w = Some w' →
  dispatch funcs sender kw w =
    (Ok (), w', (λ func, mk_call func sender kw) <$> funcs).
Proof.
  intros Hrun. rewrite <-(app_nil_r funcs) at 1.
  rewrite (dispatch_app _ _ _ _ _ _ Hrun). simpl. by rewrite app_nil_r.
Qed.

Lemma dispatch_raises funcs func rest sender kw w w1 e w2 :
  run_all funcs sender kw w = Some w1 →
  func sender kw w1 = (Raise e, w2) →
  dispatch (funcs ++ func :: rest) sender kw w =
    (Raise e, w2, (λ func, mk_call func sender kw) <$> (funcs ++ [func])).
Proof.
  intros Hrun Hraise. rewrite (dispatch_app _ _ _ _ _ _ Hrun). simpl.
  rewrite Hraise. simpl. by rewrite fmap_app.
Qed.

(** The calls are always to a prefix of the receivers, in their order. *)
Lemma dispatch_calls_prefix funcs sender kw w :
  ∃ n, (dispatch funcs sender kw w).2 =
         (λ func, mk_call func sender kw) <$> take n funcs.
Proof.
  revert w. induction funcs as [|func funcs IH]; intros w; simpl.
  - by exists 0.
  - destruct (func sender kw w) as [[v|e] w'].
    + destruct (IH w') as [n Hn]. exists (S n).
      destruct (dispatch funcs sender kw w') as [[??]?]. simpl in *. by rewrite Hn.
    + by exists 1.
Qed.

(** Every run of the loop is one of the two above: it returns when all
    receivers return, and raises what the first raising receiver raises. *)
Lemma dispatch_ok_inv funcs sender kw w w' :
  (dispatch funcs sender kw w).1 = (Ok (), w') →
  run_all funcs sender kw w = Some w'.
Proof.
  revert w. induction funcs as [|func funcs IH]; intros w; simpl.
  - by intros [= ->].
  - destruct (func sender kw w) as [[v|e] w1]; [|done].
    specialize (IH w1). destruct (dispatch funcs sender kw w1) as [[r w2] calls].
    simpl in *. done.
Qed.

Lemma dispatch_raise_inv funcs sender kw w e w2 :
  (dispatch funcs sender kw w).1 = (Raise e, w2) →
  ∃ before func rest w1,
    funcs = before ++ func :: rest ∧
    run_all before sender kw w = Some w1 ∧
    func sender kw w1 = (Raise e, w2).
Proof.
  revert w. induction funcs as [|func funcs IH]; intros w; simpl; [done|].
  destruct (func sender kw w) as [[v|e'] w1] eqn:Hcall.
  - specialize (IH w1). destruct (dispatch funcs sender kw w1) as [[r w3] calls].
    simpl in *. intros Hr. destruct (IH Hr) as (before & f & rest & w1' & -> & Hrun & Hf).
    exists (func :: before), f, rest, w1'. simpl. by rewrite Hcall.
  - simpl. intros [= -> ->]. by exists [], func, funcs, w.
Qed.

Lemma send_keeps_signal self sender kw w :
  (apply_op (Send sender kw) (self, w)).2.1 = self.
Proof. simpl. by destruct (send self sender kw w). Qed.

Lemma run_ops_receivers (ops : list (op W)) self w :
  _receivers (run_ops ops (self, w)).1 = _receivers self ++ connected ops.
Proof.
  revert self w. induction ops as [|o ops IH]; intros self w.
  - simpl. by rewrite app_nil_r.
  - unfold run_ops in *. simpl foldl. destruct o as [func|sender kw].
    + simpl apply_op. simpl snd. rewrite IH. simpl. by rewrite <-app_assoc.
    + simpl apply_op. destruct (send self sender kw w) as [r w'].
      simpl snd. by rewrite IH.
Qed.

(** C1 as amended.  When no receiver raises, one call of [send] on a
    signal on which [funcs] were registered with [connect] calls every
    one of them exactly once, in the order of registration, each with
    [sender] and the keyword arguments, and returns in the state the
    last receiver left. *)
Theorem send_calls_every_receiver_once funcs sender kw w w' :
  run_all funcs sender kw w = Some w' →
  send (connect_all funcs) sender kw w = (Ok (), w') ∧
  send_calls (connect_all funcs) sender kw w =
    (λ func, mk_call func sender kw) <$> funcs.
Proof.
  intros Hrun. unfold send, send_calls. rewrite receivers_connect_all.
  by rewrite (dispatch_returns _ _ _ _ _ Hrun).
Qed.

(** C4.  When a receiver raises during [send], the receivers before it
    having returned, the exception reaches the caller of [send] as it
    was raised, in the state the receiver left; the calls made are those
    to the receivers before it and the one call to it, so no receiver
    registered after it is called and the call is not tried again. *)
Theorem send_propagates_exception funcs func rest sender kw w w1 e w2 :
  run_all funcs sender kw w = Some w1 →
  func sender kw w1 = (Raise e, w2) →
  send (connect_all (funcs ++ func :: rest)) sender kw w = (Raise e, w2) ∧
  send_calls (connect_all (funcs ++ func :: rest)) sender kw w =
    (λ func, mk_call func sender kw) <$> (funcs ++ [func]).
Proof.
  intros Hrun Hraise. unfold send, send_calls. rewrite receivers_connect_all.
  by rewrite (dispatch_raises _ _ _ _ _ _ _ _ _ Hrun Hraise).
Qed.

(** C5 as amended.  [connect] puts the handler at the end of the
    sequence and returns it; connected twice, the handler is there twice,
    and a later [send] in which no receiver raises calls it twice. *)
Theorem connect_appends_and_returns self func sender kw w :
  connect self func = (mk_Signal (_receivers self ++ [func]), func) ∧
  _receivers (connect (connect self func).1 func).1 =
    _receivers self ++ [func; func] ∧
  ∀ w',
    run_all (_receivers self ++ [func; func]) sender kw w = Some w' →
    send_calls (connect (connect self func).1 func).1 sender kw w =
      ((λ func, mk_call func sender kw) <$> _receivers self) ++
      [mk_call func sender kw; mk_call func sender kw].
Proof.
  split_and!.
  - done.
  - simpl. by rewrite <-app_assoc.
  - intros w' Hrun. unfold send_calls. simpl. rewrite <-app_assoc. simpl.
    rewrite (dispatch_returns _ _ _ _ _ Hrun). simpl. by rewrite fmap_app.
Qed.

(** C7.  [send] leaves the signal as it is, also when a receiver raises,
    and after any sequence of [connect] and [send] calls the receivers
    are the handlers given to [connect], in the order of the calls. *)
Theorem receivers_are_the_connected_handlers (ops : list (op W)) self w :
  (∀ sender kw, (apply_op (Send sender kw) (self, w)).2.1 = self) ∧
  _receivers (run_ops ops (self, w)).1 = _receivers self ++ connected ops ∧
  _receivers (run_ops ops (Signal_init, w)).1 = connected ops.
Proof.
  split_and!.
  - intros sender kw. apply send_keeps_signal.
  - apply run_ops_receivers.
  - by rewrite run_ops_receivers.
Qed.
End signal_properties.

(** C1 as stated fails.  A receiver that raises keeps the receivers
    after it from being called: of two registered receivers, [send]
    calls the first and not the second. *)
Lemma send_skips_receivers_after_raise :
  let funcs := [failing "boom"; note "second"] in
  send (connect_all funcs) VNone ∅ [] = (Raise (mk_exn Exception "boom"), []) ∧
  send_calls (connect_all funcs) VNone ∅ [] = [mk_call (failing "boom") VNone ∅] ∧
  send_calls (connect_all funcs) VNone ∅ [] ≠
    (λ func, mk_call func VNone ∅) <$> funcs.
Proof. split_and!; [done|done|]. intros Heq. discriminate Heq. Qed.

Lemma send_calls_every_receiver_once_witness :
  run_all [note "first"; note "second"] (VStr "User") ∅ [] =
    Some ["first"; "second"] ∧
  send (connect_all [note "first"; note "second"]) (VStr "User") ∅ [] =
    (Ok (), ["first"; "second"]) ∧
  send_calls (connect_all [note "first"; note "second"]) (VStr "User") ∅ [] =
    [mk_call (note "first") (VStr "User") ∅;
     mk_call (note "second") (VStr "User") ∅].
Proof.
  split; [reflexivity|].
  apply (send_calls_every_receiver_once [note "first"; note "second"]).
  reflexivity.
Defined.

Lemma send_propagates_exception_witness :
  run_all [note "first"] (VStr "User") ∅ [] = Some ["first"] ∧
  failing "boom" (VStr "User") ∅ ["first"] =
    (Raise (mk_exn Exception "boom"), ["first"]) ∧
  send (connect_all [note "first"; failing "boom"; note "last"]) (VStr "User") ∅ [] =
    (Raise (mk_exn Exception "boom"), ["first"]) ∧
  send_calls (connect_all [note "first"; failing "boom"; note "last"])
    (VStr "User") ∅ [] =
    [mk_call (note "first") (VStr "User") ∅;
     mk_call (failing "boom") (VStr "User") ∅].
Proof.
  split; [reflexivity|]. split; [reflexivity|].
  apply (send_propagates_exception [note "first"] (failing "boom") [note "last"]
           (VStr "User") ∅ [] ["first"]); reflexivity.
Defined.

(** C5 as stated fails.  A handler that raises, connected twice, is
    there twice and is called once by [send]. *)
Lemma connect_twice_raising_called_once :
  let twice := (connect (connect Signal_init (failing "boom")).1 (failing "boom")).1 in
  _receivers twice = [failing "boom"; failing "boom"] ∧
  send_calls twice VNone ∅ [] = [mk_call (failing "boom") VNone ∅] ∧
  send_calls twice VNone ∅ [] ≠
    [mk_call (failing "boom") VNone ∅; mk_call (failing "boom") VNone ∅].
Proof. split_and!; [done|done|]. intros Heq. discriminate Heq. Qed.

Lemma connect_appends_and_returns_witness :
  run_all ([note "first"] ++ [note "again"; note "again"]) VNone ∅ [] =
    Some ["first"; "again"; "again"] ∧
  send_calls
    (connect (connect (mk_Signal [note "first"]) (note "again")).1 (note "again")).1
    VNone ∅ [] =
    [mk_call (note "first") VNone ∅; mk_call (note "again") VNone ∅;
     mk_call (note "again") VNone ∅].
Proof.
  split; [reflexivity|].
  apply (proj2 (proj2 (connect_appends_and_returns (mk_Signal [note "first"])
                         (note "again") VNone ∅ []))
           ["first"; "again"; "again"]).
  reflexivity.
Defined.

(** * Properties of the simulated transaction *)

Lemma fresh_not_live (h : gmap loc obj) : h !! fresh (dom h) = None.
Proof. apply not_elem_of_dom, is_fresh. Qed.

Lemma fresh_ne_live (h : gmap loc obj) (l : loc) (o : obj) :
  h !! l = Some o → fresh (dom h) ≠ l.
Proof. intros Hl Heq. rewrite <-Heq, fresh_not_live in Hl. discriminate. Qed.

Lemma db_layout_intro w users logs :
  db_list "users" w = Some users →
  db_list "logs" w = Some logs →
  db_ref "users" w ≠ db_ref "logs" w →
  ∃ ldb lu ll d, db_layout w ldb lu ll d users logs.
Proof.
  unfold db_list, db_ref.
  destruct (globals w !! "FAKE_DB") as [[| | |ldb]|] eqn:Hg; try done.
  simpl. destruct (heap w !! ldb) as [[?|d]|] eqn:Hd; try done.
  destruct (d !! "users") as [[| | |lu]|] eqn:Hu; try done.
  destruct (d !! "logs") as [[| | |ll]|] eqn:Hl; try done.
  simpl. destruct (heap w !! lu) as [[us|?]|] eqn:Hlu; try done.
  destruct (heap w !! ll) as [[ls|?]|] eqn:Hll; try done.
  intros [= ->] [= ->] Hne. exists ldb, lu, ll, d.
  split; try done. congruence.
Qed.

Section primitives.
Context (g : gmap string val) (h : gmap loc obj) (o : list out).

Lemma bind_ok {W A B} (m : M W A) (k : A → M W B) w a w' :
  m w = (Ok a, w') → bind m k w = k a w'.
Proof. unfold bind. by intros ->. Qed.

Lemma get_global_ok name v :
  g !! name = Some v →
  get_global name (mk_world g h o) = (Ok v, mk_world g h o).
Proof. unfold get_global. simpl. by intros ->. Qed.

Lemma subscript_ok l d key x :
  h !! l = Some (ODict d) → d !! key = Some x →
  subscript (VRef l) key (mk_world g h o) = (Ok x, mk_world g h o).
Proof. unfold subscript. simpl. by intros -> ->. Qed.

Lemma store_subscript_ok l d key x :
  h !! l = Some (ODict d) →
  store_subscript (VRef l) key x (mk_world g h o) =
    (Ok (), mk_world g (<[l:=ODict (<[key:=x]> d)]> h) o).
Proof. unfold store_subscript. simpl. by intros ->. Qed.

Lemma slice_all_ok l items :
  h !! l = Some (OList items) →
  slice_all (VRef l) (mk_world g h o) =
    (Ok (VRef (fresh (dom h))), mk_world g (<[fresh (dom h):=OList items]> h) o).
Proof. unfold slice_all. simpl. by intros ->. Qed.

Lemma append_ok l items x :
  h !! l = Some (OList items) →
  append (VRef l) x (mk_world g h o) =
    (Ok (), mk_world g (<[l:=OList (items ++ [x])]> h) o).
Proof. unfold append. simpl. by intros ->. Qed.

Lemma alloc_ok ob :
  alloc ob (mk_world g h o) =
    (Ok (VRef (fresh (dom h))), mk_world g (<[fresh (dom h):=ob]> h) o).
Proof. done. Qed.

Lemma print_line_ok s :
  print_line s (mk_world g h o) = (Ok (), mk_world g h (o ++ [Line s])).
Proof. done. Qed.
End primitives.

Ltac solve_lookup :=
  repeat (rewrite lookup_insert_ne by congruence);
  first [ apply lookup_insert_eq | eassumption | apply lookup_singleton_eq ].

Ltac run_prim :=
  first
    [ apply get_global_ok; solve_lookup
    | eapply subscript_ok; solve_lookup
    | eapply store_subscript_ok; solve_lookup
    | eapply slice_all_ok; solve_lookup
    | eapply append_ok; solve_lookup
    | apply alloc_ok
    | apply print_line_ok ].

Ltac run_step := erewrite bind_ok; [| run_prim].

Lemma db_layout_alloc g h o ldb lu ll d users logs ob :
  db_layout (mk_world g h o) ldb lu ll d users logs →
  db_layout (mk_world g (<[fresh (dom h):=ob]> h) o) ldb lu ll d users logs.
Proof.
  intros [Hg Hd Hur Hlr Hu Hl Hne]. simpl in *.
  pose proof (fresh_ne_live _ _ _ Hd). pose proof (fresh_ne_live _ _ _ Hu).
  pose proof (fresh_ne_live _ _ _ Hl).
  split; simpl; try done; by rewrite lookup_insert_ne.
Qed.

(** The handler, run on a user record, appends its entry to the logs. *)
Lemma log_user_creation_run g h o ldb lu ll d users logs sender lnew username :
  db_layout (mk_world g h o) ldb lu ll d users logs →
  h !! lnew = Some (user_record username) →
  log_user_creation sender {["instance" := VRef lnew]} (mk_world g h o) =
    (Ok VNone,
     mk_world g (<[ll:=OList (logs ++ [log_entry username])]> h) (o ++ [creating_line])).
Proof.
  intros [Hg Hd Hur Hlr Hu Hl Hne] Hnew. simpl in *.
  unfold log_user_creation. rewrite lookup_singleton_eq.
  run_step. unfold user_record in Hnew. run_step. simpl py_str.
  unfold create_log. do 3 run_step. done.
Qed.

(** [post_save] has one receiver. *)
Lemma send_post_save sender kw w :
  send post_save sender kw w =
    match log_user_creation sender kw w with
    | (Ok _, w') => (Ok (), w')
    | (Raise e, w') => (Raise e, w')
    end.
Proof.
  unfold send, post_save. simpl.
  by destruct (log_user_creation sender kw w) as [[v|e] w'].
Qed.

Lemma create_user_run g h o ldb lu ll d users logs username raise_exception :
  db_layout (mk_world g h o) ldb lu ll d users logs →
  create_user username raise_exception (mk_world g h o) =
    (if raise_exception then Raise simulated_error
     else Ok (VRef (fresh (dom h))),
     mk_world g (heap_after_create_user h lu ll users logs username)
       (o ++ [creating_line])).
Proof.
  intros [Hg Hd Hur Hlr Hu Hl Hne]. simpl in *.
  pose proof (fresh_ne_live _ _ _ Hd). pose proof (fresh_ne_live _ _ _ Hu).
  pose proof (fresh_ne_live _ _ _ Hl).
  unfold create_user. fold (user_record username).
  do 4 run_step.
  erewrite bind_ok; cycle 1.
  { rewrite send_post_save.
    erewrite (log_user_creation_run _ _ _ ldb lu ll d
                (users ++ [VRef (fresh (dom h))]) logs); [done| |].
    - split; simpl; try done; solve_lookup.
    - solve_lookup. }
  by destruct raise_exception.
Qed.

Lemma logs_after_create_user g h o ldb lu ll d users logs username o' :
  db_layout (mk_world g h o) ldb lu ll d users logs →
  db_list "logs"
    (mk_world g (heap_after_create_user h lu ll users logs username) o')
  = Some (logs ++ [log_entry username]).
Proof.
  intros [Hg Hd Hur Hlr Hu Hl Hne]. simpl in *.
  pose proof (fresh_ne_live _ _ _ Hd).
  unfold db_list, heap_after_create_user. simpl. rewrite Hg. simpl.
  repeat (rewrite lookup_insert_ne by congruence). rewrite Hd, Hlr. simpl.
  by rewrite lookup_insert_eq.
Qed.


Lemma atomic_resume_exception g h o ldb d backup e :
  g !! "FAKE_DB" = Some (VRef ldb) →
  h !! ldb = Some (ODict d) →
  is_Exception e = true →
  gen_resume atomic backup (Some e) (mk_world g h o) =
    (Ok (), mk_world g (<[ldb:=ODict (<["logs":=backup]> d)]> h) (o ++ [rollback_line])).
Proof.
  intros Hg Hd He. simpl. rewrite He. do 2 run_step. by eapply store_subscript_ok.
Qed.

Lemma atomic_resume_other backup e w :
  is_Exception e = false →
  gen_resume atomic backup (Some e) w = (Raise e, w).
Proof. intros He. simpl. by rewrite He. Qed.

Lemma atomic_enter_run g h o ldb lu ll d users logs :
  db_layout (mk_world g h o) ldb lu ll d users logs →
  gen_enter atomic (mk_world g h o) =
    (Ok (VRef (fresh (dom h))), mk_world g (<[fresh (dom h):=OList logs]> h) o).
Proof.
  intros [Hg Hd Hur Hlr Hu Hl Hne]. simpl in *.
  do 2 run_step. by eapply slice_all_ok.
Qed.

Lemma with_atomic_create_user g h o ldb lu ll d users logs username raise_exception :
  db_layout (mk_world g h o) ldb lu ll d users logs →
  with_cm atomic (create_user username raise_exception) (mk_world g h o) =
    (Ok (if raise_exception then None
         else Some (VRef (fresh (dom (<[fresh (dom h):=OList logs]> h))))),
     mk_world g
       (heap_after_block h ldb lu ll d users logs username raise_exception)
       (o ++ [creating_line] ++ if raise_exception then [rollback_line] else [])).
Proof.
  intros Hlay. unfold with_cm.
  rewrite (atomic_enter_run _ _ _ _ _ _ _ _ _ Hlay).
  rewrite (create_user_run _ _ _ _ _ _ _ _ _ _ _
             (db_layout_alloc _ _ _ _ _ _ _ _ _ (OList logs) Hlay)).
  destruct Hlay as [Hg Hd Hur Hlr Hu Hl Hne]. simpl in *.
  pose proof (fresh_ne_live _ _ _ Hd). pose proof (fresh_ne_live _ _ _ Hu).
  pose proof (fresh_ne_live _ _ _ Hl).
  assert (<[fresh (dom h):=OList logs]> h !! ldb = Some (ODict d)) as Hd1
    by solve_lookup.
  pose proof (fresh_ne_live _ _ _ Hd1).
  unfold heap_after_block.
  destruct raise_exception; simpl.
  - do 2 run_step.
    erewrite store_subscript_ok.
    + by rewrite <-app_assoc.
    + unfold heap_after_create_user. solve_lookup.
  - done.
Qed.

Lemma print_labelled_ok g h o label l items :
  h !! l = Some (OList items) →
  print_labelled label (VRef l) (mk_world g h o) =
    (Ok (), mk_world g h (o ++ [LineList label items])).
Proof. unfold print_labelled. simpl. by intros ->. Qed.

(** Reading the database back when the block is left. *)
Section after_block.
Context (g : gmap string val) (h : gmap loc obj) (o : list out).
Context (ldb lu ll : loc) (d : gmap string val) (users logs : list val).
Context (username : string).
Context (Hlay : db_layout (mk_world g h o) ldb lu ll d users logs).

Abbreviation lb := (backup_loc h).
Abbreviation lnew := (new_user_loc h logs).

Lemma block_locs_distinct :
  lb ≠ ldb ∧ lb ≠ lu ∧ lb ≠ ll ∧ lnew ≠ ldb ∧ lnew ≠ lu ∧ lnew ≠ ll ∧
  lnew ≠ lb ∧ ldb ≠ lu ∧ ldb ≠ ll ∧ lu ≠ ll.
Proof.
  unfold new_user_loc, backup_loc.
  destruct Hlay as [Hg Hd Hur Hlr Hu Hl Hne]. simpl in *.
  assert (∀ l ob, h !! l = Some ob → <[lb:=OList logs]> h !! l = Some ob) as Hkeep.
  { intros l ob Hl'. rewrite lookup_insert_ne; [done|]. by eapply fresh_ne_live. }
  repeat split;
    try (by eapply fresh_ne_live);
    try (eapply fresh_ne_live; by apply Hkeep);
    try congruence.
  eapply fresh_ne_live. apply lookup_insert_eq.
Qed.

Lemma logs_cell_after_block raise_exception :
  ∃ d' l',
    let h' := heap_after_block h ldb lu ll d users logs username raise_exception in
    h' !! ldb = Some (ODict d') ∧ d' !! "logs" = Some (VRef l') ∧
    h' !! l' = Some (OList (if raise_exception then logs
                            else logs ++ [log_entry username])).
Proof.
  destruct block_locs_distinct as (?&?&?&?&?&?&?&?&?&?).
  destruct Hlay as [Hg Hd Hur Hlr Hu Hl Hne]. simpl in *.
  unfold heap_after_block, heap_after_create_user. fold lb. fold lnew.
  destruct raise_exception.
  - exists (<["logs":=VRef lb]> d), lb. simpl. split_and!.
    + apply lookup_insert_eq.
    + apply lookup_insert_eq.
    + by repeat (rewrite lookup_insert_ne by congruence); rewrite lookup_insert_eq.
  - exists d, ll. simpl. split_and!.
    + by repeat (rewrite lookup_insert_ne by congruence).
    + done.
    + apply lookup_insert_eq.
Qed.

Lemma logs_after_block raise_exception o' :
  db_list "logs"
    (mk_world g (heap_after_block h ldb lu ll d users logs username raise_exception) o')
  = Some (if raise_exception then logs else logs ++ [log_entry username]).
Proof.
  destruct (logs_cell_after_block raise_exception) as (d' & l' & Hd' & Hl' & Hi).
  pose proof (layout_global _ _ _ _ _ _ _ Hlay) as Hg.
  unfold db_list. simpl in *. rewrite Hg. simpl.
  rewrite Hd', Hl'. simpl. by rewrite Hi.
Qed.

Lemma users_after_block raise_exception o' :
  db_list "users"
    (mk_world g (heap_after_block h ldb lu ll d users logs username raise_exception) o')
  = Some (users ++ [VRef lnew]).
Proof.
  destruct block_locs_distinct as (?&?&?&?&?&?&?&?&?&?).
  destruct Hlay as [Hg Hd Hur Hlr Hu Hl Hne]. simpl in *.
  unfold db_list, heap_after_block, heap_after_create_user.
  fold lb. fold lnew. destruct raise_exception; simpl; rewrite Hg; simpl.
  - rewrite lookup_insert_eq, lookup_insert_ne by done. rewrite Hur. simpl.
    by repeat (rewrite lookup_insert_ne by congruence); rewrite lookup_insert_eq.
  - repeat (rewrite lookup_insert_ne by congruence). rewrite Hd, Hur. simpl.
    by repeat (rewrite lookup_insert_ne by congruence); rewrite lookup_insert_eq.
Qed.

Lemma record_after_block raise_exception :
  heap_after_block h ldb lu ll d users logs username raise_exception !! lnew
  = Some (user_record username).
Proof.
  destruct block_locs_distinct as (?&?&?&?&?&?&?&?&?&?).
  unfold heap_after_block, heap_after_create_user.
  fold lb. fold lnew. destruct raise_exception;
    by repeat (rewrite lookup_insert_ne by congruence); rewrite lookup_insert_eq.
Qed.
End after_block.

Lemma with_atomic_create_user_world w ldb lu ll d users logs username raise_exception :
  db_layout w ldb lu ll d users logs →
  (with_cm atomic (create_user username raise_exception) w).2 =
    mk_world (globals w)
      (heap_after_block (heap w) ldb lu ll d users logs username raise_exception)
      (stdout w ++ [creating_line] ++ if raise_exception then [rollback_line] else []).
Proof.
  destruct w as [g h o]. intros Hlay.
  by rewrite (with_atomic_create_user _ _ _ _ _ _ _ _ _ _ _ Hlay).
Qed.

Lemma run_transaction_run w ldb lu ll d users logs username raise_exception :
  db_layout w ldb lu ll d users logs →
  run_transaction username raise_exception w =
    (Ok (),
     mk_world (globals w)
       (heap_after_block (heap w) ldb lu ll d users logs username raise_exception)
       (stdout w ++ [start_line; creating_line] ++
        (if raise_exception then [rollback_line] else []) ++
        [LineList final_label
           (if raise_exception then logs else logs ++ [log_entry username])])).
Proof.
  destruct w as [g h o]. intros Hlay. simpl.
  assert (db_layout (mk_world g h (o ++ [start_line])) ldb lu ll d users logs) as Hlay'.
  { by destruct Hlay. }
  unfold run_transaction. run_step.
  erewrite bind_ok; cycle 1.
  { unfold try_except. erewrite bind_ok.
    - reflexivity.
    - apply (with_atomic_create_user _ _ _ _ _ _ _ _ _ _ _ Hlay'). }
  destruct (logs_cell_after_block g h o ldb lu ll d users logs username Hlay
              raise_exception) as (d' & l' & Hd' & Hl' & Hi).
  simpl in Hd', Hi.
  destruct Hlay as [Hg Hd Hur Hlr Hu Hl Hne]. simpl in *.
  unfold ret. run_step.
  erewrite bind_ok; [|by eapply subscript_ok].
  erewrite print_labelled_ok by done.
  destruct raise_exception; by rewrite <-!app_assoc.
Qed.
Lemma initial_world_layout :
  ∃ ldb lu ll d, db_layout initial_world ldb lu ll d [] [].
Proof. apply db_layout_intro; by vm_compute. Qed.

(** The handler's entry is in the logs when [create_user] ends inside
    the block, whether it raises or returns. *)
Lemma logs_inside_block w ldb lu ll d users logs username raise_exception :
  db_layout w ldb lu ll d users logs →
  ∃ backup w1,
    gen_enter atomic w = (Ok backup, w1) ∧
    (create_user username raise_exception w1).1 =
      (if raise_exception then Raise simulated_error
       else Ok (VRef (fresh (dom (heap w1))))) ∧
    db_list "logs" (create_user username raise_exception w1).2 =
      Some (logs ++ [log_entry username]).
Proof.
  destruct w as [g h o]. intros Hlay.
  eexists _, _. split; [by eapply atomic_enter_run|].
  rewrite (create_user_run _ _ _ _ _ _ _ _ _ _ _
             (db_layout_alloc _ _ _ _ _ _ _ _ _ (OList logs) Hlay)).
  split; [done|]. simpl.
  apply (logs_after_block g h o ldb lu ll d users logs username Hlay false).
Qed.

(** The block of the script.  Whatever the logs hold when the block is
    entered, the handler appends its entry during the dispatch in the
    block; when [create_user] then raises, the logs hold what they held
    at first once the block is left, and when it does not raise they
    hold the entry as well. *)
Theorem atomic_restores_logs w S0 users username :
  db_list "logs" w = Some S0 →
  db_list "users" w = Some users →
  db_ref "users" w ≠ db_ref "logs" w →
  (∃ backup w1,
     gen_enter atomic w = (Ok backup, w1) ∧
     (create_user username true w1).1 = Raise simulated_error ∧
     db_list "logs" (create_user username true w1).2 =
       Some (S0 ++ [log_entry username])) ∧
  db_list "logs" (with_cm atomic (create_user username true) w).2 = Some S0 ∧
  (with_cm atomic (create_user username false) w).1 ≠ Raise simulated_error ∧
  db_list "logs" (with_cm atomic (create_user username false) w).2 =
    Some (S0 ++ [log_entry username]).
Proof.
  intros Hlogs Husers Hne.
  destruct (db_layout_intro _ _ _ Husers Hlogs Hne) as (ldb & lu & ll & d & Hlay).
  split_and!.
  - destruct (logs_inside_block _ _ _ _ _ _ _ username true Hlay)
      as (backup & w1 & Henter & Hraise & Hin).
    by exists backup, w1.
  - rewrite (with_atomic_create_user_world _ _ _ _ _ _ _ _ _ Hlay).
    destruct w as [g h o].
    apply (logs_after_block g h o ldb lu ll d users S0 username Hlay true).
  - destruct w as [g h o].
    by rewrite (with_atomic_create_user _ _ _ _ _ _ _ _ _ _ _ Hlay).
  - rewrite (with_atomic_create_user_world _ _ _ _ _ _ _ _ _ Hlay).
    destruct w as [g h o].
    apply (logs_after_block g h o ldb lu ll d users S0 username Hlay false).
Qed.

(** C10.  The rollback touches the logs only: the record that
    [create_user] appended to the users before sending the signal is
    still the last of the users once the block is left, also when the
    block raised and the logs were put back. *)
Theorem rollback_keeps_user_record w S0 users username raise_exception :
  db_list "logs" w = Some S0 →
  db_list "users" w = Some users →
  db_ref "users" w ≠ db_ref "logs" w →
  ∃ l,
    let w' := (with_cm atomic (create_user username raise_exception) w).2 in
    db_list "users" w' = Some (users ++ [VRef l]) ∧
    heap w' !! l = Some (user_record username) ∧
    (raise_exception = true → db_list "logs" w' = Some S0).
Proof.
  intros Hlogs Husers Hne.
  destruct (db_layout_intro _ _ _ Husers Hlogs Hne) as (ldb & lu & ll & d & Hlay).
  exists (fresh (dom (<[fresh (dom (heap w)):=OList S0]> (heap w)))).
  simpl. rewrite (with_atomic_create_user_world _ _ _ _ _ _ _ _ _ Hlay).
  destruct w as [g h o]. simpl. split_and!.
  - apply (users_after_block g h o ldb lu ll d users S0 username Hlay).
  - apply (record_after_block g h o ldb lu ll d users S0 username Hlay).
  - intros ->.
    apply (logs_after_block g h o ldb lu ll d users S0 username Hlay true).
Qed.

(** C6.  From the empty database, with the one handler registered:
    after the block in which [create_user] raises the logs are empty,
    and so is the list the script prints; without the raise they hold
    the one entry for the user, inside the block or without one. *)
Theorem literal_scenario username :
  _receivers post_save = [log_user_creation] ∧
  db_list "logs" initial_world = Some [] ∧
  db_list "logs" (with_cm atomic (create_user username true) initial_world).2 =
    Some [] ∧
  stdout (run_transaction username true initial_world).2 =
    [start_line; creating_line; rollback_line; LineList final_label []] ∧
  db_list "logs" (with_cm atomic (create_user username false) initial_world).2 =
    Some [VStr ("User created: " +:+ username)] ∧
  db_list "logs" (create_user username false initial_world).2 =
    Some [VStr ("User created: " +:+ username)].
Proof.
  destruct initial_world_layout as (ldb & lu & ll & d & Hlay).
  split_and!.
  - done.
  - done.
  - rewrite (with_atomic_create_user_world _ _ _ _ _ _ _ _ _ Hlay).
    apply (logs_after_block _ _ (stdout initial_world) _ _ _ _ _ _ _ Hlay true).
  - by rewrite (run_transaction_run _ _ _ _ _ _ _ _ _ Hlay).
  - rewrite (with_atomic_create_user_world _ _ _ _ _ _ _ _ _ Hlay).
    apply (logs_after_block _ _ (stdout initial_world) _ _ _ _ _ _ _ Hlay false).
  - pose proof (create_user_run (globals initial_world) (heap initial_world)
                  (stdout initial_world) _ _ _ _ _ _ username false Hlay) as Hrun.
    change (mk_world _ _ _) with initial_world in Hrun at 1. rewrite Hrun.
    apply (logs_after_create_user _ _ (stdout initial_world) _ _ _ _ _ _ _ _ Hlay).
Qed.

(** The scenario with the name of the specification. *)
Example literal_scenario_alice :
  db_list "logs" (with_cm atomic (create_user "alice" true) initial_world).2 =
    Some [] ∧
  db_list "logs" (with_cm atomic (create_user "alice" false) initial_world).2 =
    Some [VStr "User created: alice"].
Proof. by vm_compute. Qed.

(** C2, on the script as it is.  [create_user] raises inside the block
    and [atomic] puts the logs back, but the generator then returns
    instead of raising again: the [with] statement ends without an
    exception, the [except] clause of the script does not run and the
    failure message is not printed. *)
Theorem main_prints_no_failure :
  (with_cm atomic (create_user "txn_test_user" true) initial_world).1 = Ok None ∧
  (main empty_world).1 = Ok () ∧
  stdout (main empty_world).2 =
    [start_line; creating_line; rollback_line; LineList final_label []] ∧
  failed_line ∉ stdout (main empty_world).2.
Proof.
  split_and!; [by vm_compute..|].
  apply (bool_decide_unpack _). by vm_compute.
Qed.

(** The same for every user name and every database. *)
Lemma with_atomic_swallows_exception w S0 users username :
  db_list "logs" w = Some S0 →
  db_list "users" w = Some users →
  db_ref "users" w ≠ db_ref "logs" w →
  (with_cm atomic (create_user username true) w).1 = Ok None ∧
  (run_transaction username true w).1 = Ok () ∧
  stdout (run_transaction username true w).2 =
    stdout w ++ [start_line; creating_line; rollback_line; LineList final_label S0].
Proof.
  intros Hlogs Husers Hne.
  destruct (db_layout_intro _ _ _ Husers Hlogs Hne) as (ldb & lu & ll & d & Hlay).
  rewrite (run_transaction_run _ _ _ _ _ _ _ _ _ Hlay).
  destruct w as [g h o].
  by rewrite (with_atomic_create_user _ _ _ _ _ _ _ _ _ _ _ Hlay).
Qed.

Lemma atomic_restores_logs_witness :
  db_list "logs" history_world = Some [VStr "User created: bob"] ∧
  db_list "users" history_world = Some [VRef 4%positive] ∧
  db_ref "users" history_world ≠ db_ref "logs" history_world ∧
  db_list "logs" (with_cm atomic (create_user "alice" true) history_world).2 =
    Some [VStr "User created: bob"] ∧
  db_list "logs" (with_cm atomic (create_user "alice" false) history_world).2 =
    Some [VStr "User created: bob"; VStr "User created: alice"].
Proof.
  split; [reflexivity|]. split; [reflexivity|]. split; [by vm_compute|].
  pose proof (atomic_restores_logs history_world [VStr "User created: bob"]
                [VRef 4%positive] "alice") as H.
  destruct H as (_ & Hraise & _ & Hcommit);
    [reflexivity|reflexivity|by vm_compute|].
  split; [exact Hraise|exact Hcommit].
Defined.

Lemma rollback_keeps_user_record_witness :
  db_list "logs" history_world = Some [VStr "User created: bob"] ∧
  db_list "users" history_world = Some [VRef 4%positive] ∧
  db_ref "users" history_world ≠ db_ref "logs" history_world ∧
  ∃ l,
    let w' := (with_cm atomic (create_user "alice" true) history_world).2 in
    db_list "users" w' = Some [VRef 4%positive; VRef l] ∧
    heap w' !! l = Some (user_record "alice") ∧
    (true = true → db_list "logs" w' = Some [VStr "User created: bob"]).
Proof.
  split; [reflexivity|]. split; [reflexivity|]. split; [by vm_compute|].
  apply (rollback_keeps_user_record history_world [VStr "User created: bob"]
           [VRef 4%positive] "alice" true);
    [reflexivity|reflexivity|by vm_compute].
Defined.

(** * Further properties of [Signal] *)

Section signal_laws.
Context {W : Type}.
Implicit Types (self : Signal W) (func : handler W) (funcs : list (handler W)).
Implicit Types (sender : val) (kw : kwargs) (w : W).

Lemma dispatch_calls_take funcs sender kw w :
  (List.length (dispatch funcs sender kw w).2 ≤ List.length funcs)%nat ∧
  (dispatch funcs sender kw w).2 =
    (λ func, mk_call func sender kw) <$>
      take (List.length (dispatch funcs sender kw w).2) funcs.
Proof.
  revert w. induction funcs as [|func funcs IH]; intros w; simpl; [done|].
  destruct (func sender kw w) as [[v|e] w'].
  - destruct (IH w') as [Hlen Hcalls].
    destruct (dispatch funcs sender kw w') as [[r w''] calls]. simpl in *.
    split; [lia|]. f_equal. exact Hcalls.
  - simpl. split; [lia|done].
Qed.

Lemma dispatch_calls_nonempty func funcs sender kw w :
  (0 < List.length (dispatch (func :: funcs) sender kw w).2)%nat.
Proof.
  simpl. destruct (func sender kw w) as [[v|e] w']; simpl; [|lia].
  destruct (dispatch funcs sender kw w') as [[r w''] calls]. simpl. lia.
Qed.

Lemma dispatch_ok_length funcs sender kw w w' :
  (dispatch funcs sender kw w).1 = (Ok (), w') →
  List.length (dispatch funcs sender kw w).2 = List.length funcs.
Proof.
  intros Hok. apply dispatch_ok_inv in Hok.
  rewrite (dispatch_returns _ _ _ _ _ Hok). simpl. by rewrite length_fmap.
Qed.

(** The loop over [funcs ++ rest] is the loop over [funcs] followed,
    when it returns, by the loop over [rest]. *)
Lemma dispatch_app_result funcs rest sender kw w :
  (dispatch (funcs ++ rest) sender kw w).1 =
    match (dispatch funcs sender kw w).1 with
    | (Ok _, w1) => (dispatch rest sender kw w1).1
    | (Raise e, w1) => (Raise e, w1)
    end.
Proof.
  destruct (dispatch funcs sender kw w) as [[[[]|e] w1] calls] eqn:Hd; simpl.
  - assert (run_all funcs sender kw w = Some w1) as Hrun.
    { apply dispatch_ok_inv. by rewrite Hd. }
    by rewrite (dispatch_app _ _ _ _ _ _ Hrun).
  - assert ((dispatch funcs sender kw w).1 = (Raise e, w1)) as Hr by by rewrite Hd.
    apply dispatch_raise_inv in Hr as (before & func & after & w0 & -> & Hrun & Hf).
    rewrite <-app_assoc. simpl.
    by rewrite (dispatch_raises _ _ _ _ _ _ _ _ _ Hrun Hf).
Qed.

(** X1.  Whatever the receivers do, the calls of one [send] are calls to
    the receivers at the front of the sequence, in its order, one call
    each with [sender] and the keyword arguments: no receiver is called
    twice or before an earlier one, at least one is called when there is
    one, and all are when [send] returns. *)
Theorem send_calls_front_of_receivers self sender kw w :
  let n := List.length (send_calls self sender kw w) in
  (n ≤ List.length (_receivers self))%nat ∧
  send_calls self sender kw w =
    (λ func, mk_call func sender kw) <$> take n (_receivers self) ∧
  (_receivers self ≠ [] → (0 < n)%nat) ∧
  ((send self sender kw w).1 = Ok () → n = List.length (_receivers self)).
Proof.
  unfold send_calls, send. cbv zeta.
  destruct (dispatch_calls_take (_receivers self) sender kw w) as [Hlen Hcalls].
  split_and!.
  - exact Hlen.
  - exact Hcalls.
  - destruct (_receivers self) as [|func funcs]; [done|].
    intros _. apply dispatch_calls_nonempty.
  - intros Hok.
    apply (dispatch_ok_length _ _ _ _ (dispatch (_receivers self) sender kw w).1.2).
    destruct (dispatch (_receivers self) sender kw w) as [[r w'] calls].
    simpl in *. by subst r.
Qed.

(** X2.  [send] raises nothing of its own: when it raises, one of the
    receivers raised that exception, in the state the receivers before
    it left after returning, and [send] ends in the state that receiver
    left. *)
Theorem send_raises_what_a_receiver_raised self sender kw w e w2 :
  send self sender kw w = (Raise e, w2) →
  ∃ before func rest w1,
    _receivers self = before ++ func :: rest ∧
    run_all before sender kw w = Some w1 ∧
    func sender kw w1 = (Raise e, w2).
Proof.
  unfold send. generalize (_receivers self). intros funcs. revert w.
  induction funcs as [|func funcs IH]; intros w; simpl; [done|].
  destruct (func sender kw w) as [[v|e'] w1] eqn:Hcall.
  - specialize (IH w1). destruct (dispatch funcs sender kw w1) as [[r w3] calls].
    simpl in *. intros Hr.
    destruct (IH Hr) as (before & f & rest & w1' & -> & Hrun & Hf).
    exists (func :: before), f, rest, w1'. simpl. by rewrite Hcall.
  - simpl. intros [= -> ->]. by exists [], func, funcs, w.
Qed.

(** X3.  For receivers that leave the signal alone while they run, as
    the receivers of this development do, sending on a signal after
    [connect] is sending on the signal as it was before, then calling
    the connected handler: the new handler runs last, in the state the
    others left, and not at all when one of them raises. *)
Theorem send_after_connect self func sender kw w :
  send (connect self func).1 sender kw w =
    (send self sender kw >> (func sender kw >> ret ())) w.
Proof.
  unfold send, bind. simpl. rewrite dispatch_app_result.
  destruct (dispatch (_receivers self) sender kw w) as [[[[]|e] w1] calls];
    simpl; [|done].
  by destruct (func sender kw w1) as [[v|e] w2].
Qed.
End signal_laws.

Lemma send_raises_what_a_receiver_raised_witness :
  send (connect_all [note "first"; failing "boom"; note "last"]) VNone ∅ [] =
    (Raise (mk_exn Exception "boom"), ["first"]) ∧
  ∃ before func rest w1,
    [note "first"; failing "boom"; note "last"] = before ++ func :: rest ∧
    run_all before VNone ∅ [] = Some w1 ∧
    func VNone ∅ w1 = (Raise (mk_exn Exception "boom"), ["first"]).
Proof.
  split; [reflexivity|].
  apply (send_raises_what_a_receiver_raised
           (connect_all [note "first"; failing "boom"; note "last"]) VNone ∅ []).
  reflexivity.
Defined.

Lemma send_calls_front_of_receivers_witness :
  _receivers (connect_all [note "first"; failing "boom"; note "last"]) ≠ [] ∧
  (0 < List.length
         (send_calls (connect_all [note "first"; failing "boom"; note "last"])
            VNone ∅ []))%nat.
Proof.
  split; [discriminate|].
  apply (send_calls_front_of_receivers
           (connect_all [note "first"; failing "boom"; note "last"]) VNone ∅ []).
  discriminate.
Defined.

(** * Further properties of the database and its handler *)

(** What [db_list] finds on its way to the list. *)
Lemma db_list_inv key w items :
  db_list key w = Some items →
  ∃ ldb d l,
    globals w !! "FAKE_DB" = Some (VRef ldb) ∧
    heap w !! ldb = Some (ODict d) ∧
    d !! key = Some (VRef l) ∧
    heap w !! l = Some (OList items) ∧
    db_ref key w = Some l.
Proof.
  unfold db_list, db_ref.
  destruct (globals w !! "FAKE_DB") as [[| | |ldb]|] eqn:Hg; try done.
  simpl. destruct (heap w !! ldb) as [[?|d]|] eqn:Hd; try done.
  destruct (d !! key) as [[| | |l]|] eqn:Hk; try done.
  simpl. destruct (heap w !! l) as [[its|?]|] eqn:Hl; try done.
  intros [= ->]. by exists ldb, d, l.
Qed.

Lemma create_log_run g h o ldb d ll logs message :
  g !! "FAKE_DB" = Some (VRef ldb) →
  h !! ldb = Some (ODict d) →
  d !! "logs" = Some (VRef ll) →
  h !! ll = Some (OList logs) →
  create_log message (mk_world g h o) =
    (Ok VNone, mk_world g (<[ll:=OList (logs ++ [message])]> h) o).
Proof. intros Hg Hd Hlr Hl. unfold create_log. by do 3 run_step. Qed.

(** X4.  [create_log] puts the message at the end of the logs and keeps
    what was there; it changes the list object in place, so
    [FAKE_DB["logs"]] is the same object afterwards, and it touches no
    other object, no global name and not the output. *)
Theorem create_log_appends w S0 message :
  db_list "logs" w = Some S0 →
  (create_log message w).1 = Ok VNone ∧
  db_list "logs" (create_log message w).2 = Some (S0 ++ [message]) ∧
  db_ref "logs" (create_log message w).2 = db_ref "logs" w ∧
  globals (create_log message w).2 = globals w ∧
  stdout (create_log message w).2 = stdout w ∧
  ∀ l, db_ref "logs" w ≠ Some l →
       heap (create_log message w).2 !! l = heap w !! l.
Proof.
  intros Hlogs.
  destruct (db_list_inv _ _ _ Hlogs) as (ldb & d & ll & Hg & Hd & Hlr & Hl & Href).
  destruct w as [g h o]. simpl in *.
  rewrite (create_log_run _ _ _ _ _ _ _ message Hg Hd Hlr Hl). simpl.
  assert (ll ≠ ldb) as Hne by congruence.
  split_and!; try done.
  - unfold db_list. simpl. rewrite Hg. simpl.
    rewrite lookup_insert_ne, Hd, Hlr by done. simpl. by rewrite lookup_insert_eq.
  - rewrite Href. unfold db_ref. simpl. rewrite Hg. simpl.
    by rewrite lookup_insert_ne, Hd, Hlr by done.
  - intros l Hl'. rewrite Href in Hl'. rewrite lookup_insert_ne; [done|congruence].
Qed.

Lemma create_log_raise w message e :
  (create_log message w).1 = Raise e →
  (create_log message w).2 = w ∧ is_Exception e = true.
Proof.
  unfold create_log, bind, get_global, subscript, append, ret, deref.
  destruct w as [g h o]. simpl.
  repeat case_match; simplify_eq/=; try done.
  all: intros [= <-]; done.
Qed.

(** X5.  [create_log] either appends or changes nothing: when it raises
    (no [FAKE_DB], no ["logs"] key, or something there that is not a
    list), the interpreter state is as before, and what it raises is an
    instance of [Exception]. *)
Theorem create_log_fails_cleanly w message e :
  (create_log message w).1 = Raise e →
  (create_log message w).2 = w ∧ is_Exception e = true.
Proof.
  destruct w as [g h o].
  unfold create_log, bind, get_global, subscript, append, ret, deref. simpl.
  destruct (g !! "FAKE_DB") as [db|]; simpl; [|by intros [= <-]].
  destruct db as [| | |ldb]; simpl; try by intros [= <-].
  destruct (h !! ldb) as [[items|d]|]; simpl; try by intros [= <-].
  destruct (d !! "logs") as [logs|]; simpl; [|by intros [= <-]].
  destruct logs as [| | |ll]; simpl; try by intros [= <-].
  destruct (h !! ll) as [[items|d']|]; simpl; by intros [= <-].
Qed.

Lemma create_log_appends_witness :
  db_list "logs" history_world = Some [VStr "User created: bob"] ∧
  db_list "logs" (create_log (VStr "note") history_world).2 =
    Some [VStr "User created: bob"; VStr "note"].
Proof.
  split; [reflexivity|].
  apply (create_log_appends history_world [VStr "User created: bob"] (VStr "note")).
  reflexivity.
Defined.

Lemma create_log_fails_cleanly_witness :
  (create_log (VStr "note") no_logs_world).1 = Raise (mk_exn KeyError "logs") ∧
  (create_log (VStr "note") no_logs_world).2 = no_logs_world ∧
  is_Exception (mk_exn KeyError "logs") = true.
Proof.
  split; [reflexivity|].
  apply (create_log_fails_cleanly no_logs_world (VStr "note")).
  reflexivity.
Defined.

Lemma subscript_state v key w : (subscript v key w).2 = w.
Proof. unfold subscript. by repeat case_match. Qed.

Lemma log_user_creation_unfold sender (kw : kwargs) g h o :
  log_user_creation sender kw (mk_world g h o) =
    match kw !! "instance" with
    | None =>
        (Raise (mk_exn TypeError "log_user_creation() missing 1 required positional argument: 'instance'"),
         mk_world g h o)
    | Some instance =>
        match subscript instance "username" (mk_world g h (o ++ [creating_line])) with
        | (Ok username, w1) =>
            create_log (VStr ("User created: " +:+ py_str username)) w1
        | (Raise e, w1) => (Raise e, w1)
        end
    end.
Proof. unfold log_user_creation. by destruct (kw !! "instance"). Qed.

Lemma subscript_raise_is_Exception v key w e :
  (subscript v key w).1 = Raise e → is_Exception e = true.
Proof. unfold subscript. repeat case_match; by intros [= <-]. Qed.

(** X6.  When the handler raises, the database is as it was: no object
    and no global name has changed.  Without an ["instance"] argument
    nothing is printed either; with one, the line of the handler is
    already printed when the look-up of the user name or the logging
    fails.  What it raises is an instance of [Exception]. *)
Theorem log_user_creation_fails_cleanly sender (kw : kwargs) w e :
  (log_user_creation sender kw w).1 = Raise e →
  heap (log_user_creation sender kw w).2 = heap w ∧
  globals (log_user_creation sender kw w).2 = globals w ∧
  stdout (log_user_creation sender kw w).2 =
    stdout w ++ match kw !! "instance" with
                | Some _ => [creating_line]
                | None => []
                end ∧
  is_Exception e = true.
Proof.
  destruct w as [g h o]. rewrite log_user_creation_unfold.
  destruct (kw !! "instance") as [instance|]; simpl.
  - pose proof (subscript_state instance "username" (mk_world g h (o ++ [creating_line])))
      as Hst.
    pose proof (subscript_raise_is_Exception instance "username"
                  (mk_world g h (o ++ [creating_line]))) as Hex.
    destruct (subscript instance "username" _) as [[username|e'] w1]. 
    + simpl in Hst. subst w1. intros Hraise.
      by destruct (create_log_raise _ _ _ Hraise) as [-> He].
    + simpl in *. subst w1. intros [= ->]. split_and!; try done. by apply Hex.
  - rewrite app_nil_r. by intros [= <-].
Qed.

Lemma log_user_creation_fails_cleanly_witness :
  (log_user_creation (VStr "User") {["instance" := VRef 3%positive]} history_world).1 =
    Raise (mk_exn KeyError "username") ∧
  heap (log_user_creation (VStr "User") {["instance" := VRef 3%positive]} history_world).2 =
    heap history_world ∧
  db_list "logs"
    (log_user_creation (VStr "User") {["instance" := VRef 3%positive]} history_world).2 =
    Some [VStr "User created: bob"].
Proof.
  split; [reflexivity|].
  destruct (log_user_creation_fails_cleanly (VStr "User")
              {["instance" := VRef 3%positive]} history_world
              (mk_exn KeyError "username")) as (Hheap & _); [reflexivity|].
  split; [exact Hheap|reflexivity].
Defined.

(** * Further properties of [create_user] and [atomic] *)

Lemma users_after_create_user g h o ldb lu ll d users logs username o' :
  db_layout (mk_world g h o) ldb lu ll d users logs →
  db_list "users"
    (mk_world g (heap_after_create_user h lu ll users logs username) o')
  = Some (users ++ [VRef (fresh (dom h))]).
Proof.
  intros [Hg Hd Hur Hlr Hu Hl Hne]. simpl in *.
  pose proof (fresh_ne_live _ _ _ Hd).
  unfold db_list, heap_after_create_user. simpl. rewrite Hg. simpl.
  repeat (rewrite lookup_insert_ne by congruence). rewrite Hd, Hur. simpl.
  by rewrite lookup_insert_ne, lookup_insert_eq by congruence.
Qed.

Lemma record_after_create_user g h o ldb lu ll d users logs username :
  db_layout (mk_world g h o) ldb lu ll d users logs →
  heap_after_create_user h lu ll users logs username !! fresh (dom h)
  = Some (user_record username).
Proof.
  intros [Hg Hd Hur Hlr Hu Hl Hne]. simpl in *.
  pose proof (fresh_ne_live _ _ _ Hu). pose proof (fresh_ne_live _ _ _ Hl).
  unfold heap_after_create_user.
  by repeat (rewrite lookup_insert_ne by congruence); rewrite lookup_insert_eq.
Qed.

(** X7.  Outside a block [create_user] keeps all it did, also when it
    raises: the raise comes last, after the new record was appended to
    the users and the handler logged it.  The value returned is the
    reference of that record, a new object. *)
Theorem create_user_effects w users logs username raise_exception :
  db_list "users" w = Some users →
  db_list "logs" w = Some logs →
  db_ref "users" w ≠ db_ref "logs" w →
  ∃ l,
    heap w !! l = None ∧
    (create_user username raise_exception w).1 =
      (if raise_exception then Raise simulated_error else Ok (VRef l)) ∧
    db_list "users" (create_user username raise_exception w).2 =
      Some (users ++ [VRef l]) ∧
    heap (create_user username raise_exception w).2 !! l =
      Some (user_record username) ∧
    db_list "logs" (create_user username raise_exception w).2 =
      Some (logs ++ [log_entry username]) ∧
    stdout (create_user username raise_exception w).2 =
      stdout w ++ [creating_line].
Proof.
  intros Husers Hlogs Hne.
  destruct (db_layout_intro _ _ _ Husers Hlogs Hne) as (ldb & lu & ll & d & Hlay).
  destruct w as [g h o]. exists (fresh (dom h)).
  rewrite (create_user_run _ _ _ _ _ _ _ _ _ username raise_exception Hlay).
  simpl. split_and!.
  - apply fresh_not_live.
  - done.
  - by eapply users_after_create_user.
  - by eapply record_after_create_user.
  - by eapply logs_after_create_user.
  - done.
Qed.

Lemma create_user_effects_witness :
  db_list "users" history_world = Some [VRef 4%positive] ∧
  db_list "logs" history_world = Some [VStr "User created: bob"] ∧
  db_ref "users" history_world ≠ db_ref "logs" history_world ∧
  ∃ l,
    heap history_world !! l = None ∧
    (create_user "alice" true history_world).1 = Raise simulated_error ∧
    db_list "users" (create_user "alice" true history_world).2 =
      Some [VRef 4%positive; VRef l] ∧
    heap (create_user "alice" true history_world).2 !! l =
      Some (user_record "alice") ∧
    db_list "logs" (create_user "alice" true history_world).2 =
      Some [VStr "User created: bob"; VStr "User created: alice"] ∧
    stdout (create_user "alice" true history_world).2 =
      stdout history_world ++ [creating_line].
Proof.
  split; [reflexivity|]. split; [reflexivity|]. split; [by vm_compute|].
  apply (create_user_effects history_world [VRef 4%positive]
           [VStr "User created: bob"] "alice" true);
    [reflexivity|reflexivity|by vm_compute].
Defined.

Lemma bind_raise {W A B} (m : M W A) (k : A → M W B) w e w' :
  m w = (Raise e, w') → bind m k w = (Raise e, w').
Proof. unfold bind. by intros ->. Qed.

Lemma subscript_missing g h o l d key :
  h !! l = Some (ODict d) → d !! key = None →
  subscript (VRef l) key (mk_world g h o) =
    (Raise (mk_exn KeyError key), mk_world g h o).
Proof. unfold subscript. simpl. by intros -> ->. Qed.

(** X8.  When [FAKE_DB] has no ["users"] key, [create_user] raises
    [KeyError] before it stores anything or sends the signal: the
    objects that were there are as before (the new record is an object
    nothing refers to), and nothing is printed. *)
Theorem create_user_without_users w ldb d username raise_exception :
  globals w !! "FAKE_DB" = Some (VRef ldb) →
  heap w !! ldb = Some (ODict d) →
  d !! "users" = None →
  (create_user username raise_exception w).1 = Raise (mk_exn KeyError "users") ∧
  globals (create_user username raise_exception w).2 = globals w ∧
  stdout (create_user username raise_exception w).2 = stdout w ∧
  ∀ l ob, heap w !! l = Some ob →
          heap (create_user username raise_exception w).2 !! l = Some ob.
Proof.
  intros Hg Hd Hu. destruct w as [g h o]. simpl in *.
  pose proof (fresh_ne_live _ _ _ Hd).
  assert (create_user username raise_exception (mk_world g h o) =
            (Raise (mk_exn KeyError "users"),
             mk_world g (<[fresh (dom h):=user_record username]> h) o)) as ->.
  { unfold create_user. do 2 run_step. apply bind_raise.
    eapply subscript_missing; [solve_lookup|done]. }
  simpl. split_and!; try done.
  intros l ob Hl. rewrite lookup_insert_ne; [done|]. by eapply fresh_ne_live.
Qed.

Lemma create_user_without_users_witness :
  globals (mk_world {["FAKE_DB" := VRef 1%positive]}
             {[1%positive := ODict {["logs" := VRef 2%positive]}]} [])
    !! "FAKE_DB" = Some (VRef 1%positive) ∧
  ({["logs" := VRef 2%positive]} : gmap string val) !! "users" = None ∧
  (create_user "alice" false
     (mk_world {["FAKE_DB" := VRef 1%positive]}
        {[1%positive := ODict {["logs" := VRef 2%positive]}]} [])).1 =
    Raise (mk_exn KeyError "users").
Proof.
  split; [reflexivity|]. split; [reflexivity|].
  apply (create_user_without_users
           (mk_world {["FAKE_DB" := VRef 1%positive]}
              {[1%positive := ODict {["logs" := VRef 2%positive]}]} [])
           1%positive {["logs" := VRef 2%positive]} "alice" false); reflexivity.
Defined.

(** X9.  [atomic] catches instances of [Exception] only.  When the
    block raises anything else, such as [KeyboardInterrupt], the
    [with] statement raises it on, nothing is printed and nothing is
    put back: the state is the one the block left. *)
Theorem atomic_passes_other_exceptions {A} (body : M world A) w frame e :
  (gen_enter atomic w).1 = Ok frame →
  (body (gen_enter atomic w).2).1 = Raise e →
  is_Exception e = false →
  with_cm atomic body w = (Raise e, (body (gen_enter atomic w).2).2).
Proof.
  intros Henter Hbody He. unfold with_cm.
  destruct (gen_enter atomic w) as [r w1]. cbn [fst snd] in *. subst r.
  destruct (body w1) as [r w2]. cbn [fst snd] in *. subst r.
  by rewrite atomic_resume_other.
Qed.

Lemma atomic_passes_other_exceptions_witness :
  (gen_enter atomic initial_world).1 = Ok (VRef 4%positive) ∧
  (interrupted_block (gen_enter atomic initial_world).2).1 =
    Raise (mk_exn KeyboardInterrupt "") ∧
  is_Exception (mk_exn KeyboardInterrupt "") = false ∧
  (with_cm atomic interrupted_block initial_world).1 =
    Raise (mk_exn KeyboardInterrupt "") ∧
  db_list "logs" (with_cm atomic interrupted_block initial_world).2 =
    Some [VStr "half done"].
Proof.
  split; [reflexivity|]. split; [reflexivity|]. split; [reflexivity|].
  rewrite (atomic_passes_other_exceptions interrupted_block initial_world
             (VRef 4%positive) (mk_exn KeyboardInterrupt ""));
    [|reflexivity..].
  split; reflexivity.
Defined.

Lemma atomic_enter_logs w S0 :
  db_list "logs" w = Some S0 →
  gen_enter atomic w =
    (Ok (VRef (backup_loc (heap w))),
     mk_world (globals w) (<[backup_loc (heap w):=OList S0]> (heap w)) (stdout w)).
Proof.
  intros Hlogs.
  destruct (db_list_inv _ _ _ Hlogs) as (ldb & d & ll & Hg & Hd & Hlr & Hl & Href).
  destruct w as [g h o]. simpl in *.
  do 2 run_step. by eapply slice_all_ok.
Qed.

(** X10.  The roll-back does not depend on what the block is.  For any
    block that raises an instance of [Exception] and leaves [FAKE_DB] a
    dictionary and the backup list as it was made, the [with] statement
    ends without an exception, prints the roll-back line after what the
    block printed, and the logs are what they were when the block was
    entered; the users are what the block left. *)
Theorem atomic_rolls_back_any_block {A} (body : M world A) w S0 e ldb d :
  db_list "logs" w = Some S0 →
  (body (gen_enter atomic w).2).1 = Raise e →
  is_Exception e = true →
  globals (body (gen_enter atomic w).2).2 !! "FAKE_DB" = Some (VRef ldb) →
  heap (body (gen_enter atomic w).2).2 !! ldb = Some (ODict d) →
  heap (body (gen_enter atomic w).2).2 !! backup_loc (heap w) = Some (OList S0) →
  (with_cm atomic body w).1 = Ok None ∧
  db_list "logs" (with_cm atomic body w).2 = Some S0 ∧
  db_list "users" (with_cm atomic body w).2 =
    db_list "users" (body (gen_enter atomic w).2).2 ∧
  stdout (with_cm atomic body w).2 =
    stdout (body (gen_enter atomic w).2).2 ++ [rollback_line].
Proof.
  intros Hlogs Hbody He Hg Hd Hb. unfold with_cm.
  rewrite (atomic_enter_logs _ _ Hlogs) in *.
  cbn [fst snd] in *.
  destruct (body _) as [r [g2 h2 o2]]. cbn [fst snd globals heap stdout] in *. subst r.
  rewrite (atomic_resume_exception _ _ _ _ _ _ _ Hg Hd He). simpl.
  assert (ldb ≠ backup_loc (heap w)) as Hne by congruence.
  split_and!; try done.
  - unfold db_list. simpl. rewrite Hg. simpl.
    rewrite lookup_insert_eq, lookup_insert_eq. simpl.
    by rewrite lookup_insert_ne, Hb by done.
  - unfold db_list. simpl. rewrite Hg. simpl.
    rewrite lookup_insert_eq, Hd, lookup_insert_ne by done.
    destruct (d !! "users") as [[| | |lu]|]; try done. simpl.
    destruct (decide (lu = ldb)) as [->|Hlu].
    + by rewrite lookup_insert_eq, Hd.
    + by rewrite lookup_insert_ne.
Qed.

Lemma atomic_rolls_back_any_block_witness :
  db_list "logs" history_world = Some [VStr "User created: bob"] ∧
  (create_user "alice" true (gen_enter atomic history_world).2).1 =
    Raise simulated_error ∧
  is_Exception simulated_error = true ∧
  (with_cm atomic (create_user "alice" true) history_world).1 = Ok None ∧
  db_list "logs" (with_cm atomic (create_user "alice" true) history_world).2 =
    Some [VStr "User created: bob"].
Proof.
  split; [reflexivity|]. split; [reflexivity|]. split; [reflexivity|].
  destruct (atomic_rolls_back_any_block (create_user "alice" true) history_world
              [VStr "User created: bob"] simulated_error 3%positive
              (<["users":=VRef 1%positive]> (<["logs":=VRef 2%positive]> ∅)))
    as (Hok & Hl & _); [reflexivity..|].
  split; [exact Hok|exact Hl].
Defined.

(** X11.  The roll-back rebinds, it does not undo: after a block that
    raised, [FAKE_DB["logs"]] is a new list object, the copy made on
    entry, and the list object that was the logs before still holds the
    handler's entry.  After a block that did not raise,
    [FAKE_DB["logs"]] is the object it was. *)
Theorem rollback_rebinds_logs w S0 users username :
  db_list "logs" w = Some S0 →
  db_list "users" w = Some users →
  db_ref "users" w ≠ db_ref "logs" w →
  ∃ old new,
    db_ref "logs" w = Some old ∧
    heap w !! new = None ∧
    db_ref "logs" (with_cm atomic (create_user username true) w).2 = Some new ∧
    heap (with_cm atomic (create_user username true) w).2 !! new =
      Some (OList S0) ∧
    heap (with_cm atomic (create_user username true) w).2 !! old =
      Some (OList (S0 ++ [log_entry username])) ∧
    db_ref "logs" (with_cm atomic (create_user username false) w).2 = Some old.
Proof.
  intros Hlogs Husers Hne.
  destruct (db_layout_intro _ _ _ Husers Hlogs Hne) as (ldb & lu & ll & d & Hlay).
  rewrite !(with_atomic_create_user_world _ _ _ _ _ _ _ _ _ Hlay).
  destruct w as [g h o].
  destruct (block_locs_distinct g h o ldb lu ll d users S0 Hlay)
    as (?&?&?&?&?&?&?&?&?&?).
  destruct Hlay as [Hg Hd Hur Hlr Hu Hl Hne']. simpl in *.
  exists ll, (backup_loc h).
  unfold db_ref, heap_after_block, heap_after_create_user. simpl.
  fold (backup_loc h). fold (new_user_loc h S0). rewrite Hg. simpl.
  split_and!.
  - by rewrite Hd, Hlr.
  - apply fresh_not_live.
  - by rewrite lookup_insert_eq, lookup_insert_eq.
  - by repeat (rewrite lookup_insert_ne by congruence); rewrite lookup_insert_eq.
  - by rewrite lookup_insert_ne, lookup_insert_eq by congruence.
  - repeat (rewrite lookup_insert_ne by congruence). by rewrite Hd, Hlr.
Qed.

Lemma rollback_rebinds_logs_witness :
  db_list "logs" history_world = Some [VStr "User created: bob"] ∧
  db_list "users" history_world = Some [VRef 4%positive] ∧
  db_ref "users" history_world ≠ db_ref "logs" history_world ∧
  ∃ old new,
    db_ref "logs" history_world = Some old ∧
    heap history_world !! new = None ∧
    db_ref "logs" (with_cm atomic (create_user "alice" true) history_world).2 =
      Some new ∧
    heap (with_cm atomic (create_user "alice" true) history_world).2 !! new =
      Some (OList [VStr "User created: bob"]) ∧
    heap (with_cm atomic (create_user "alice" true) history_world).2 !! old =
      Some (OList ([VStr "User created: bob"] ++ [log_entry "alice"])) ∧
    db_ref "logs" (with_cm atomic (create_user "alice" false) history_world).2 =
      Some old.
Proof.
  split; [reflexivity|]. split; [reflexivity|]. split; [by vm_compute|].
  apply (rollback_rebinds_logs history_world [VStr "User created: bob"]
           [VRef 4%positive] "alice");
    [reflexivity|reflexivity|by vm_compute].
Defined.

Lemma atomic_enter_without_logs w ldb d :
  globals w !! "FAKE_DB" = Some (VRef ldb) →
  heap w !! ldb = Some (ODict d) →
  d !! "logs" = None →
  gen_enter atomic w = (Raise (mk_exn KeyError "logs"), w).
Proof.
  intros Hg Hd Hl. destruct w as [g h o]. simpl in *.
  run_step. apply bind_raise. by eapply subscript_missing.
Qed.

Lemma with_atomic_enter_raise {A} (body : M world A) w e w1 :
  gen_enter atomic w = (Raise e, w1) → with_cm atomic body w = (Raise e, w1).
Proof. unfold with_cm. by intros ->. Qed.

(** X12.  When [FAKE_DB] has no ["logs"] key, entering [atomic] raises
    [KeyError]; the block, whatever it is, does not run, and the state
    is as before. *)
Theorem atomic_without_logs {A} (body : M world A) w ldb d :
  globals w !! "FAKE_DB" = Some (VRef ldb) →
  heap w !! ldb = Some (ODict d) →
  d !! "logs" = None →
  with_cm atomic body w = (Raise (mk_exn KeyError "logs"), w).
Proof.
  intros Hg Hd Hl. apply with_atomic_enter_raise.
  by eapply atomic_enter_without_logs.
Qed.

Lemma atomic_without_logs_witness :
  globals no_logs_world !! "FAKE_DB" = Some (VRef 1%positive) ∧
  heap no_logs_world !! 1%positive = Some (ODict {["users" := VRef 2%positive]}) ∧
  ({["users" := VRef 2%positive]} : gmap string val) !! "logs" = None ∧
  with_cm atomic (create_user "alice" false) no_logs_world =
    (Raise (mk_exn KeyError "logs"), no_logs_world).
Proof.
  split; [reflexivity|]. split; [reflexivity|]. split; [reflexivity|].
  apply (atomic_without_logs (create_user "alice" false) no_logs_world 1%positive
           {["users" := VRef 2%positive]}); reflexivity.
Defined.

(** X13.  On a database with its two lists the last part of the script
    ends without an exception for every user name, with or without the
    simulated error: it prints the start line, the handler's line, the
    roll-back line when [create_user] raised, and the logs as the block
    left them; the failure line is not among them. *)
Theorem run_transaction_output w S0 users username raise_exception :
  db_list "logs" w = Some S0 →
  db_list "users" w = Some users →
  db_ref "users" w ≠ db_ref "logs" w →
  (run_transaction username raise_exception w).1 = Ok () ∧
  stdout (run_transaction username raise_exception w).2 =
    stdout w ++ [start_line; creating_line] ++
    (if raise_exception then [rollback_line] else []) ++
    [LineList final_label
       (if raise_exception then S0 else S0 ++ [log_entry username])].
Proof.
  intros Hlogs Husers Hne.
  destruct (db_layout_intro _ _ _ Husers Hlogs Hne) as (ldb & lu & ll & d & Hlay).
  by rewrite (run_transaction_run _ _ _ _ _ _ _ _ _ Hlay).
Qed.

Lemma run_transaction_output_witness :
  db_list "logs" history_world = Some [VStr "User created: bob"] ∧
  db_list "users" history_world = Some [VRef 4%positive] ∧
  db_ref "users" history_world ≠ db_ref "logs" history_world ∧
  (run_transaction "alice" false history_world).1 = Ok () ∧
  stdout (run_transaction "alice" false history_world).2 =
    stdout history_world ++ [start_line; creating_line] ++ [] ++
    [LineList final_label ([VStr "User created: bob"] ++ [log_entry "alice"])].
Proof.
  split; [reflexivity|]. split; [reflexivity|]. split; [by vm_compute|].
  apply (run_transaction_output history_world [VStr "User created: bob"]
           [VRef 4%positive] "alice" false);
    [reflexivity|reflexivity|by vm_compute].
Defined.

(** X14.  The [except] clause of the script runs when entering the
    block fails: on a database without ["logs"] the script prints the
    start line and the failure line, and then the final [print] raises
    [KeyError], with nothing else changed. *)
Theorem run_transaction_without_logs w ldb d username raise_exception :
  globals w !! "FAKE_DB" = Some (VRef ldb) →
  heap w !! ldb = Some (ODict d) →
  d !! "logs" = None →
  run_transaction username raise_exception w =
    (Raise (mk_exn KeyError "logs"),
     mk_world (globals w) (heap w) (stdout w ++ [start_line; failed_line])).
Proof.
  intros Hg Hd Hl. destruct w as [g h o]. simpl in *.
  unfold run_transaction. run_step.
  erewrite bind_ok; cycle 1.
  { unfold try_except. erewrite bind_raise.
    - apply print_line_ok.
    - apply with_atomic_enter_raise. by eapply atomic_enter_without_logs. }
  run_step. rewrite <-app_assoc. simpl.
  apply bind_raise. by eapply subscript_missing.
Qed.

Lemma run_transaction_without_logs_witness :
  globals no_logs_world !! "FAKE_DB" = Some (VRef 1%positive) ∧
  heap no_logs_world !! 1%positive = Some (ODict {["users" := VRef 2%positive]}) ∧
  ({["users" := VRef 2%positive]} : gmap string val) !! "logs" = None ∧
  run_transaction "alice" true no_logs_world =
    (Raise (mk_exn KeyError "logs"),
     mk_world (globals no_logs_world) (heap no_logs_world)
       (stdout no_logs_world ++ [start_line; failed_line])).
Proof.
  split; [reflexivity|]. split; [reflexivity|]. split; [reflexivity|].
  apply (run_transaction_without_logs no_logs_world 1%positive
           {["users" := VRef 2%positive]} "alice" true); reflexivity.
Defined.

(** X15.  In any interpreter state, [FAKE_DB = {"users": [], "logs": []}]
    leaves a database whose users and logs are empty and are two
    different list objects; the objects that were there, the output and
    the other global names are as before. *)
Theorem init_fake_db_empty_database w :
  (init_fake_db w).1 = Ok () ∧
  db_list "users" (init_fake_db w).2 = Some [] ∧
  db_list "logs" (init_fake_db w).2 = Some [] ∧
  db_ref "users" (init_fake_db w).2 ≠ db_ref "logs" (init_fake_db w).2 ∧
  stdout (init_fake_db w).2 = stdout w ∧
  (∀ l ob, heap w !! l = Some ob → heap (init_fake_db w).2 !! l = Some ob) ∧
  (∀ name, name ≠ "FAKE_DB" →
           globals (init_fake_db w).2 !! name = globals w !! name).
Proof.
  destruct w as [g h o]. unfold init_fake_db.
  do 3 run_step. unfold set_global. simpl.
  set (l1 := fresh (dom h)).
  set (h1 := <[l1:=OList []]> h).
  set (l2 := fresh (dom h1)).
  set (h2 := <[l2:=OList []]> h1).
  set (l3 := fresh (dom h2)).
  assert (h1 !! l1 = Some (OList [])) as H11 by apply lookup_insert_eq.
  assert (l2 ≠ l1) as H21 by by eapply fresh_ne_live.
  assert (h2 !! l1 = Some (OList [])) as H12
    by (unfold h2; by rewrite lookup_insert_ne).
  assert (h2 !! l2 = Some (OList [])) as H22 by apply lookup_insert_eq.
  assert (l3 ≠ l1) as H31 by by eapply fresh_ne_live.
  assert (l3 ≠ l2) as H32 by by eapply fresh_ne_live.
  unfold db_list, db_ref. simpl. rewrite !lookup_insert_eq. simpl.
  rewrite !lookup_insert_eq. simpl.
  rewrite (lookup_insert_ne _ "users" "logs"), lookup_insert_eq by done. simpl.
  rewrite !(lookup_insert_ne _ l3) by done. rewrite H12, H22.
  split_and!; try done.
  - congruence.
  - intros l ob Hl.
    assert (h1 !! l = Some ob) as Hl1.
    { unfold h1. rewrite lookup_insert_ne; [done|]. by eapply fresh_ne_live. }
    assert (h2 !! l = Some ob) as Hl2.
    { unfold h2. rewrite lookup_insert_ne; [done|]. by eapply fresh_ne_live. }
    rewrite lookup_insert_ne; [done|]. by eapply fresh_ne_live.
  - intros name Hname. by rewrite lookup_insert_ne.
Qed.

(** * Transactions one after the other *)

Lemma db_layout_elim w ldb lu ll d users logs :
  db_layout w ldb lu ll d users logs →
  db_list "users" w = Some users ∧ db_list "logs" w = Some logs ∧
  db_ref "users" w = Some lu ∧ db_ref "logs" w = Some ll.
Proof.
  intros [Hg Hd Hur Hlr Hu Hl Hne]. unfold db_list, db_ref.
  rewrite Hg. simpl. rewrite Hd, Hur, Hlr. simpl. by rewrite Hu, Hl.
Qed.

(** The block keeps the database in shape, and the user names that
    could be read before can be read after it. *)
Section block_invariant.
Context (g : gmap string val) (h : gmap loc obj) (o : list out).
Context (ldb lu ll : loc) (d : gmap string val) (users logs : list val).
Context (username : string).
Context (Hlay : db_layout (mk_world g h o) ldb lu ll d users logs).

Lemma layout_after_block raise_exception o' :
  db_layout
    (mk_world g (heap_after_block h ldb lu ll d users logs username raise_exception) o')
    ldb lu
    (if raise_exception then backup_loc h else ll)
    (if raise_exception then <["logs":=VRef (backup_loc h)]> d else d)
    (users ++ [VRef (new_user_loc h logs)])
    (if raise_exception then logs else logs ++ [log_entry username]).
Proof.
  destruct (block_locs_distinct g h o ldb lu ll d users logs Hlay)
    as (?&?&?&?&?&?&?&?&?&?).
  destruct Hlay as [Hg Hd Hur Hlr Hu Hl Hne]. simpl in *.
  unfold heap_after_block, heap_after_create_user.
  fold (backup_loc h). fold (new_user_loc h logs).
  destruct raise_exception; split; simpl; try done;
    repeat (rewrite lookup_insert_ne by congruence);
    first [ by rewrite lookup_insert_eq | done | congruence ].
Qed.

Lemma username_of_after_block v name raise_exception o' :
  username_of (mk_world g h o) v = Some name →
  username_of
    (mk_world g (heap_after_block h ldb lu ll d users logs username raise_exception) o')
    v = Some name.
Proof.
  destruct (block_locs_distinct g h o ldb lu ll d users logs Hlay)
    as (?&?&?&?&?&?&?&?&?&?).
  destruct Hlay as [Hg Hd Hur Hlr Hu Hl Hne]. simpl in *.
  unfold username_of. destruct v as [| | |l]; try done. simpl.
  destruct (h !! l) as [[items|dd]|] eqn:Hl'; try done. intros Hname.
  assert (backup_loc h ≠ l) as Hb by by eapply fresh_ne_live.
  assert (new_user_loc h logs ≠ l) as Hn.
  { eapply fresh_ne_live. by rewrite lookup_insert_ne, Hl'. }
  unfold heap_after_block, heap_after_create_user.
  fold (backup_loc h). fold (new_user_loc h logs).
  destruct (decide (l = ldb)) as [->|Hldb].
  - assert (dd = d) as -> by congruence.
    destruct raise_exception.
    + by rewrite lookup_insert_eq, lookup_insert_ne.
    + repeat (rewrite lookup_insert_ne by congruence). by rewrite Hd.
  - destruct raise_exception;
      repeat (rewrite lookup_insert_ne by congruence); by rewrite Hl'.
Qed.

Lemma username_of_new_user raise_exception o' :
  username_of
    (mk_world g (heap_after_block h ldb lu ll d users logs username raise_exception) o')
    (VRef (new_user_loc h logs)) = Some (VStr username).
Proof.
  unfold username_of. simpl.
  rewrite (record_after_block g h o ldb lu ll d users logs username Hlay).
  apply lookup_singleton_eq.
Qed.

Lemma usernames_after_block names raise_exception o' :
  mapM (username_of (mk_world g h o)) users = Some names →
  mapM
    (username_of
       (mk_world g (heap_after_block h ldb lu ll d users logs username raise_exception) o'))
    (users ++ [VRef (new_user_loc h logs)]) = Some (names ++ [VStr username]).
Proof.
  rewrite !mapM_Some. intros Hall. apply Forall2_app.
  - eapply Forall2_impl; [exact Hall|]. intros v name Hv.
    by apply username_of_after_block.
  - constructor; [|constructor]. apply username_of_new_user.
Qed.
End block_invariant.

Lemma committed_entries_cons username raise_exception txs :
  committed_entries ((username, raise_exception) :: txs) =
    (if raise_exception then [] else [log_entry username]) ++ committed_entries txs.
Proof.
  unfold committed_entries. rewrite filter_cons. simpl.
  destruct raise_exception; by case_decide.
Qed.

Lemma run_transactions_cons username raise_exception txs w :
  run_transactions ((username, raise_exception) :: txs) w =
    match with_cm atomic (create_user username raise_exception) w with
    | (Ok _, w1) => run_transactions txs w1
    | (Raise e, w1) => (Raise e, w1)
    end.
Proof.
  unfold run_transactions. simpl. unfold bind, ret.
  by destruct (with_cm atomic (create_user username raise_exception) w) as [[?|?] ?].
Qed.

Lemma run_transactions_layout txs :
  ∀ w ldb lu ll d users logs names,
    db_layout w ldb lu ll d users logs →
    mapM (username_of w) users = Some names →
    ∃ ll' d' users',
      (run_transactions txs w).1 = Ok () ∧
      db_layout (run_transactions txs w).2 ldb lu ll' d' users'
        (logs ++ committed_entries txs) ∧
      mapM (username_of (run_transactions txs w).2) users' =
        Some (names ++ ((λ tx, VStr tx.1) <$> txs)).
Proof.
  induction txs as [|[username raise_exception] txs IH];
    intros w ldb lu ll d users logs names Hlay Hnames.
  - exists ll, d, users. simpl. by rewrite !app_nil_r.
  - rewrite run_transactions_cons. destruct w as [g h o].
    rewrite (with_atomic_create_user _ _ _ _ _ _ _ _ _ username raise_exception Hlay).
    pose proof (layout_after_block g h o ldb lu ll d users logs username Hlay
                  raise_exception
                  (o ++ [creating_line] ++
                   if raise_exception then [rollback_line] else [])) as Hlay1.
    pose proof (usernames_after_block g h o ldb lu ll d users logs username Hlay
                  names raise_exception
                  (o ++ [creating_line] ++
                   if raise_exception then [rollback_line] else []) Hnames) as Hnames1.
    destruct (IH _ _ _ _ _ _ _ _ Hlay1 Hnames1) as (ll' & d' & users' & Hok & Hlay' & Hn').
    exists ll', d', users'. rewrite committed_entries_cons. split_and!.
    + exact Hok.
    + destruct raise_exception; simpl in *; [done|]. by rewrite <-app_assoc in Hlay'.
    + rewrite Hn'. simpl. by rewrite <-app_assoc.
Qed.

(** X16.  Transactions run one after the other, each in its own block,
    all end without an exception.  Afterwards the logs are the earlier
    logs followed by the entries of the transactions that did not raise,
    in their order; the users are the earlier users followed by one
    record for every transaction, raised or not; and the database still
    has its two different lists. *)
Theorem run_transactions_result w S0 names txs :
  db_list "logs" w = Some S0 →
  db_usernames w = Some names →
  db_ref "users" w ≠ db_ref "logs" w →
  (run_transactions txs w).1 = Ok () ∧
  db_list "logs" (run_transactions txs w).2 = Some (S0 ++ committed_entries txs) ∧
  db_usernames (run_transactions txs w).2 =
    Some (names ++ ((λ tx, VStr tx.1) <$> txs)) ∧
  db_ref "users" (run_transactions txs w).2 ≠
    db_ref "logs" (run_transactions txs w).2.
Proof.
  intros Hlogs Hnames Hne. unfold db_usernames in Hnames.
  destruct (db_list "users" w) as [users|] eqn:Husers; [|done].
  destruct (db_layout_intro _ _ _ Husers Hlogs Hne) as (ldb & lu & ll & d & Hlay).
  destruct (run_transactions_layout txs _ _ _ _ _ _ _ _ Hlay Hnames)
    as (ll' & d' & users' & Hok & Hlay' & Hn').
  destruct (db_layout_elim _ _ _ _ _ _ _ Hlay') as (Hu' & Hl' & Hru & Hrl).
  split_and!; try done.
  - unfold db_usernames. by rewrite Hu'.
  - rewrite Hru, Hrl. intros [= ->]. by destruct Hlay'.
Qed.

Lemma run_transactions_result_witness :
  db_list "logs" history_world = Some [VStr "User created: bob"] ∧
  db_usernames history_world = Some [VStr "bob"] ∧
  db_ref "users" history_world ≠ db_ref "logs" history_world ∧
  db_list "logs"
    (run_transactions [("alice", true); ("carol", false); ("dave", true)]
       history_world).2 =
    Some [VStr "User created: bob"; VStr "User created: carol"] ∧
  db_usernames
    (run_transactions [("alice", true); ("carol", false); ("dave", true)]
       history_world).2 =
    Some [VStr "bob"; VStr "alice"; VStr "carol"; VStr "dave"].
Proof.
  split; [reflexivity|]. split; [reflexivity|]. split; [by vm_compute|].
  destruct (run_transactions_result history_world [VStr "User created: bob"]
              [VStr "bob"] [("alice", true); ("carol", false); ("dave", true)])
    as (_ & Hl & Hu & _); [reflexivity|reflexivity|by vm_compute|].
  split; [exact Hl|exact Hu].
Defined.

(** * The timed dispatch *)









Lemma sleeping_handler_keeps_time secs : keeps_time (sleeping_handler secs).
Proof.
  intros sender kw w. unfold sleeping_handler.
  destruct (kw !! "instance") as [instance|]; [|apply Qle_refl].
  unfold bind, say, time_sleep, ret. simpl.
  destruct (Qle_bool 0 secs) eqn:Hsecs; simpl; [|apply Qle_refl].
  apply Qle_bool_iff in Hsecs. lra.
Qed.

(** The send and the [User.create] of the theorem do return when the
    other receivers return and the sleeping receiver is given an
    instance and a length that is not negative. *)
Lemma send_sleeping_returns before after secs sender (kw : kwargs) w w1 w3 :
  run_all before sender kw w = Some w1 →
  is_Some (kw !! "instance") →
  (0 <= secs)%Q →
  run_all after sender kw
    (mk_process (clock w1 + secs) (instances w1)
       (said w1 ++ [Said "➡️ Signal handler started"] ++
        [Said "✅ Signal handler ended"])) = Some w3 →
  send (connect_all (before ++ sleeping_handler secs :: after)) sender kw w =
    (Ok (), w3).
Proof.
  intros Hbefore [instance Hkw] Hsecs Hafter.
  unfold send. rewrite receivers_connect_all.
  rewrite (dispatch_app _ _ _ _ _ _ Hbefore). simpl.
  unfold sleeping_handler at 1. rewrite Hkw.
  unfold bind, say, time_sleep, ret. simpl.
  apply Qle_bool_iff in Hsecs. rewrite Hsecs. simpl.
  rewrite <-app_assoc. simpl in *.
  by rewrite (dispatch_returns _ _ _ _ _ Hafter).
Qed.


(** The first part as the file runs it: the duration printed at the end
    is the five seconds of the handler's sleep, and the handler's two
    lines come before it. *)
Example timing_script_output :
  timing_script process_start =
    (Ok (),
     mk_process (0 + 5)
       {[1%positive := mk_User (VStr "testuser_sync")]}
       [Said "👤 User instance created"; Said "➡️ Signal handler started";
        Said "✅ Signal handler ended";
        SaidDuration "⏱️ Total time taken:" (0 + 5 - 0)]).
Proof. by vm_compute. Qed.

(** The duration comes from the receiver: on a signal without it the
    same measurement gives no time at all. *)
Example timed_send_without_sleeper :
  timed (send (connect_all [quick_handler "before"; quick_handler "after"])
           (VClass "User") {["instance" := VRef 1%positive]}) process_start =
    (Ok (0 - 0)%Q,
     mk_process 0 ∅ [Said "before"; Said "after"]).
Proof. reflexivity. Qed.

(** * The roll-back and the class of the exception *)




